(** * eslint-plugin-tailwind-canonical-classes: the rule, embedded and verified

    A shallow embedding of [src/lib/tailwind-canonical-classes.js].

    - JavaScript strings are [string]s; every [ascii] stands for the UTF-16
      code unit of the same number (code units below 256).
    - The four module-level [let] variables are the record [ModuleVars]; the
      event loop (load promises that have not settled yet) and the problems
      reported through [context.report] complete the [World].
    - Code that can throw lives in the monad [M], world passing with a
      [completion]; [try]/[catch] is the combinator [tryCatch].
    - Node's [path], [fs] and [process], and Tailwind's loader, are the fields
      of a [Host]; the design system's [canonicalizeCandidates] is a field of
      the handle the loader resolves to. *)

From stdpp Require Import base option list strings gmap.
From Stdlib Require Import ZArith Ascii.

Set Default Proof Using "Type".

(* ===================================================================== *)
(** * JavaScript string primitives used by the rule *)
(* ===================================================================== *)

Module Js.

(** The characters [\s] matches and [String.prototype.trim] strips, among
    code units below 256: TAB, LF, VT, FF, CR, SPACE and NBSP. *)
Definition isWhiteSpace (c : ascii) : bool :=
  existsb (Ascii.eqb c)
    [ascii_of_nat 9; ascii_of_nat 10; ascii_of_nat 11; ascii_of_nat 12;
     ascii_of_nat 13; ascii_of_nat 32; ascii_of_nat 160].

(** The characters a regular expression's [.] refuses (no [s] flag). *)
Definition isLineTerminator (c : ascii) : bool :=
  existsb (Ascii.eqb c) [ascii_of_nat 10; ascii_of_nat 13].

(** The characters of the regular expression's quote class: double quote
    (34), single quote (39) and backtick (96). *)
Definition isQuote (c : ascii) : bool :=
  existsb (Ascii.eqb c) [ascii_of_nat 34; ascii_of_nat 39; ascii_of_nat 96].

Definition backtick : ascii := ascii_of_nat 96.

(** [s.split(/\s+/)]: [cur] is the piece being read, [inRun] says that the
    last character read was white space (its piece is already emitted). *)
Fixpoint splitFrom (inRun : bool) (cur : string) (s : string) : list string :=
  match s with
  | EmptyString => [cur]
  | String c s' =>
      if isWhiteSpace c
      then (if inRun then splitFrom true EmptyString s'
            else cur :: splitFrom true EmptyString s')
      else splitFrom false (cur +:+ String c EmptyString) s'
  end.

Definition split_ws (s : string) : list string := splitFrom false EmptyString s.

Fixpoint trimStart (s : string) : string :=
  match s with
  | EmptyString => EmptyString
  | String c s' => if isWhiteSpace c then trimStart s' else s
  end.

Fixpoint trimEnd (s : string) : string :=
  match s with
  | EmptyString => EmptyString
  | String c s' =>
      match trimEnd s' with
      | EmptyString => if isWhiteSpace c then EmptyString else String c EmptyString
      | r => String c r
      end
  end.

Definition trim (s : string) : string := trimEnd (trimStart s).

(** [parts.join(sep)]. *)
Definition join (sep : string) (parts : list string) : string :=
  String.concat sep parts.

(** Truthiness of a string: non-empty. *)
Definition truthy (s : string) : bool :=
  match s with EmptyString => false | _ => true end.

(** The last character of a string, and the string without it. *)
Fixpoint lastChar (s : string) : option ascii :=
  match s with
  | EmptyString => None
  | String c EmptyString => Some c
  | String _ s' => lastChar s'
  end.

Fixpoint allChars (p : ascii → bool) (s : string) : bool :=
  match s with
  | EmptyString => true
  | String c s' => p c && allChars p s'
  end.

Fixpoint anyChar (p : ascii → bool) (s : string) : bool :=
  match s with
  | EmptyString => false
  | String c s' => p c || anyChar p s'
  end.

Fixpoint dropLast (s : string) : string :=
  match s with
  | EmptyString => EmptyString
  | String _ EmptyString => EmptyString
  | String c s' => String c (dropLast s')
  end.

(** [quoteMatch]: the text matched against the anchored pattern
    quote, any run of [.], the same quote again; the result is capture
    group 1. The text opens with a quote, closes with the same quote (a second
    character), and no line terminator stands in between. *)
Definition matchQuoted (text : string) : option ascii :=
  match text with
  | String q rest =>
      if isQuote q
      then match lastChar rest with
           | Some q' =>
               if Ascii.eqb q' q && allChars (λ c, negb (isLineTerminator c)) (dropLast rest)
               then Some q else None
           | None => None
           end
      else None
  | EmptyString => None
  end.

(** [startQuoteMatch]: the text opens with a quote; capture group 1. *)
Definition matchStartQuote (text : string) : option ascii :=
  match text with
  | String q _ => if isQuote q then Some q else None
  | EmptyString => None
  end.

(** [text.lastIndexOf(q) > 0] for a one-character [q]. *)
Definition lastIndexOfPositive (q : ascii) (text : string) : bool :=
  match text with
  | String _ rest => anyChar (Ascii.eqb q) rest
  | EmptyString => false
  end.

End Js.

(* ===================================================================== *)
(** * Values, syntax trees and the host *)
(* ===================================================================== *)

(** A thrown value. Everything Node and the loader throw is an [Error]
    object, which is truthy. *)
Inductive JsError := Error (message : string).

(** How a call ends: with a value, or by throwing. *)
Inductive completion (A : Type) :=
  | Normal (a : A)
  | Throw (e : JsError).
Arguments Normal {A} a.
Arguments Throw {A} e.

#[global] Instance completion_ret : MRet completion := λ A a, Normal a.
#[global] Instance completion_bind : MBind completion := λ A B f c,
  match c with
  | Normal a => f a
  | Throw e => Throw e
  end.

(** The value of a [Literal] node: a string, or anything else
    ([typeof value !== 'string']). *)
Inductive LiteralValue :=
  | StringValue (s : string)
  | OtherValue.

(** [quasi.value?.cooked]: absent when the escape sequences are invalid. *)
Record TemplateElement := { cooked : option string }.

(** The nodes the rule tells apart by [type]. *)
#[warnings="-register-all"] Inductive Node :=
  | Literal (value : LiteralValue)
  | TemplateLiteral (quasis : list TemplateElement) (expressions : list Node)
  | JSXExpressionContainer (expression : Node)
  | OtherNode (type : string).

(** A [JSXAttribute] node: [node.name.name] and [node.value] (absent for an
    attribute without a value). *)
Record JSXAttribute := { attr_name : string; attr_value : option Node }.

Record SourceCode := { getText : Node → string }.

(** The handle the loader resolves to. [canonicalizeCandidates] takes the
    candidates and [rem]; it may be missing from the handle, and may throw. *)
Record DesignSystem := {
  canonicalizeCandidates : option (list string → Z → completion (list string))
}.

Record RuleOptions := { opt_cssPath : option string; opt_rootFontSize : option Z }.

(** The rule context: [context.options[0]], [context.getFilename()] and
    [context.getSourceCode()]. *)
Record Context := {
  options : option RuleOptions;
  getFilename : completion string;
  getSourceCode : SourceCode
}.

Inductive MessageId := nonCanonical | cssNotFound.

Inductive ReportData :=
  | NonCanonicalData (original : string) (canonical : option string)
  | PathData (path : string).

Inductive ReportTarget :=
  | AtNode (node : Node)
  | AtLoc (line column : nat).

(** [fixer.replaceText(node, text)]. *)
Inductive Fix := replaceText (node : Node) (text : string).

(** A problem passed to [context.report]. [fix_] is [None] when the descriptor
    has no [fix] function, [Some None] when the function returns [null]. *)
Record Report := {
  target : ReportTarget;
  messageId : MessageId;
  data : ReportData;
  fix_ : option (option Fix)
}.

(** Node's [path], [fs] and [process], and [__unstable__loadDesignSystem]
    (its synchronous part: the promise it returns is allocated by [callLoad]). *)
Record Host := {
  path_isAbsolute : string → completion bool;
  path_dirname : string → completion string;
  path_resolve : string → string → completion string;
  fs_existsSync : string → completion bool;
  fs_readFileSync : string → completion string;
  process_cwd : completion string;
  loadDesignSystem : string → string → completion unit
}.

(* ===================================================================== *)
(** * The module state and the monad of the rule *)
(* ===================================================================== *)

Definition Promise := nat.

(** The four module-level variables. *)
Record ModuleVars := {
  designSystemCache : option DesignSystem;
  designSystemPromise : option Promise;
  designSystemError : option JsError;
  cssPathCache : option string
}.

(** All of them [null], as the module leaves them when it is loaded. *)
Definition initialVars : ModuleVars :=
  {| designSystemCache := None; designSystemPromise := None;
     designSystemError := None; cssPathCache := None |}.

(** The module variables, the load promises that have not settled, the next
    promise to allocate, and the problems reported so far. *)
Record World := {
  vars : ModuleVars;
  pending : list Promise;
  nextPromise : Promise;
  reported : list Report
}.

Definition initialWorld : World :=
  {| vars := initialVars; pending := []; nextPromise := 0; reported := [] |}.

Definition withVars (w : World) (v : ModuleVars) : World :=
  {| vars := v; pending := pending w; nextPromise := nextPromise w;
     reported := reported w |}.

Definition M (A : Type) : Type := World → completion A * World.

#[global] Instance M_ret : MRet M := λ A a w, (Normal a, w).
#[global] Instance M_bind : MBind M := λ A B f m w,
  match m w with
  | (Normal a, w') => f a w'
  | (Throw e, w') => (Throw e, w')
  end.

Definition liftC {A} (c : completion A) : M A := λ w, (c, w).

(** [try { body } catch (error) { handler }]. *)
Definition tryCatch {A} (body : M A) (handler : JsError → M A) : M A := λ w,
  match body w with
  | (Normal a, w') => (Normal a, w')
  | (Throw e, w') => handler e w'
  end.

Definition readVars : M ModuleVars := λ w, (Normal (vars w), w).

Definition setCache (ds : DesignSystem) (v : ModuleVars) : ModuleVars :=
  {| designSystemCache := Some ds; designSystemPromise := designSystemPromise v;
     designSystemError := designSystemError v; cssPathCache := cssPathCache v |}.
Definition setPromise (p : Promise) (v : ModuleVars) : ModuleVars :=
  {| designSystemCache := designSystemCache v; designSystemPromise := Some p;
     designSystemError := designSystemError v; cssPathCache := cssPathCache v |}.
Definition setError (e : JsError) (v : ModuleVars) : ModuleVars :=
  {| designSystemCache := designSystemCache v;
     designSystemPromise := designSystemPromise v;
     designSystemError := Some e; cssPathCache := cssPathCache v |}.

Definition modifyVars (f : ModuleVars → ModuleVars) : M unit := λ w,
  (Normal (), withVars w (f (vars w))).

(** [context.report(descriptor)]. *)
Definition report (r : Report) : M unit := λ w,
  (Normal (),
   {| vars := vars w; pending := pending w; nextPromise := nextPromise w;
      reported := reported w ++ [r] |}).

(** [__unstable__loadDesignSystem(css, { base })]: unless the call throws, a
    fresh promise that has not settled. *)
Definition callLoad (h : Host) (css base : string) : M Promise := λ w,
  match loadDesignSystem h css base with
  | Throw e => (Throw e, w)
  | Normal _ =>
      (Normal (nextPromise w),
       {| vars := vars w; pending := nextPromise w :: pending w;
          nextPromise := S (nextPromise w); reported := reported w |})
  end.

(* ===================================================================== *)
(** * resolveCssPath, getDesignSystemSync, getDesignSystemAsync *)
(* ===================================================================== *)

Definition resolveCssPath (h : Host) (cssPath : string) (context : Context)
  : completion (option string) :=
  if negb (Js.truthy cssPath) then mret None
  else
    absolute ← path_isAbsolute h cssPath;
    if absolute : bool then mret (Some cssPath)
    else
      filename ← getFilename context;
      fileDir ← path_dirname h filename;
      relativeToFile ← path_resolve h fileDir cssPath;
      existsHere ← fs_existsSync h relativeToFile;
      if existsHere : bool then mret (Some relativeToFile)
      else
        cwd ← process_cwd h;
        relativeToCwd ← path_resolve h cwd cssPath;
        existsThere ← fs_existsSync h relativeToCwd;
        if existsThere : bool then mret (Some relativeToCwd)
        else mret (Some relativeToCwd).

(** The variables after [if (cssPathCache !== cssPath) { ... }] has fired. *)
Definition resetVars (cssPath : string) : ModuleVars :=
  {| designSystemCache := None; designSystemPromise := None;
     designSystemError := None; cssPathCache := Some cssPath |}.

Definition resetIfPathChanged (cssPath : string) : M unit := λ w,
  if decide (cssPathCache (vars w) = Some cssPath)
  then (Normal (), w)
  else (Normal (), withVars w (resetVars cssPath)).

Definition notFoundError (cssPath : string) : JsError :=
  Error ("CSS file not found: " +:+ cssPath).

(** The body of the [try] block of [getDesignSystemSync]. *)
Definition loadAttempt (h : Host) (cssPath : string) (context : Context)
  : M (option DesignSystem) :=
  resolvedPath ← liftC (resolveCssPath h cssPath context);
  let notFound : M (option DesignSystem) :=
    modifyVars (setError (notFoundError cssPath));; mret None in
  match resolvedPath with
  | None => notFound
  | Some resolved =>
      if negb (Js.truthy resolved) then notFound
      else
        present ← liftC (fs_existsSync h resolved);
        if present : bool then
          cssContent ← liftC (fs_readFileSync h resolved);
          basePath ← liftC (path_dirname h resolved);
          promise ← callLoad h cssContent basePath;
          modifyVars (setPromise promise);;
          mret None
        else notFound
  end.

Definition getDesignSystemSync (h : Host) (cssPath : string) (context : Context)
  : M (option DesignSystem) :=
  resetIfPathChanged cssPath;;
  v ← readVars;
  match designSystemCache v with
  | Some ds => mret (Some ds)
  | None =>
      match designSystemError v with
      | Some _ => mret None
      | None =>
          match designSystemPromise v with
          | Some _ => mret None
          | None =>
              tryCatch (loadAttempt h cssPath context)
                (λ error, modifyVars (setError error);; mret None)
          end
      end
  end.

(** [.then((ds) => { designSystemCache = ds; return ds; })]. *)
Definition onFulfilled (ds : DesignSystem) (w : World) : World :=
  withVars w (setCache ds (vars w)).

(** [.catch((error) => { designSystemError = error; return null; })]. *)
Definition onRejected (error : JsError) (w : World) : World :=
  withVars w (setError error (vars w)).

(** [getDesignSystemAsync] up to its [await]. The promise it awaits is the
    one [getDesignSystemSync] stored, whose [catch] handler makes it always
    fulfil; what runs after the [await] only returns a value, so the effect of
    the whole call on the module variables is the effect of this part. *)
Definition getDesignSystemAsync (h : Host) (cssPath : string) (context : Context)
  : M unit :=
  resetIfPathChanged cssPath;;
  v ← readVars;
  match designSystemCache v with
  | Some _ => mret ()
  | None =>
      match designSystemError v with
      | Some _ => mret ()
      | None =>
          match designSystemPromise v with
          | None => getDesignSystemSync h cssPath context;; mret ()
          | Some _ => mret ()
          end
      end
  end.

(** [promise.catch(() => {})] on the promise of an async call: a throw inside
    the call rejects that promise and goes no further. *)
Definition swallow {A} (m : M A) : M unit := λ w, (Normal (), (m w).2).

(* ===================================================================== *)
(** * extractClassNames *)
(* ===================================================================== *)

(** [str.split(/\s+/).filter((cls) => cls.trim().length > 0)]. *)
Definition splitClasses (classString : string) : list string :=
  List.filter (λ cls, Nat.ltb 0 (String.length (Js.trim cls)))
    (Js.split_ws classString).

(** The loop over [quasis] that fills [parts]. *)
Fixpoint templateParts (quasis : list TemplateElement) : list string :=
  match quasis with
  | [] => []
  | quasi :: rest =>
      let cooked := default EmptyString (cooked quasi) in
      if Js.truthy (Js.trim cooked)
      then Js.trim cooked :: templateParts rest
      else templateParts rest
  end.

(** [extractClassNames(classNameValue, sourceCode)] for a node that is
    present ([sourceCode] is not used by the function). *)
Fixpoint extractClassNames (classNameValue : Node) : list string :=
  match classNameValue with
  | Literal (StringValue classString) => splitClasses classString
  | Literal OtherValue => []
  | TemplateLiteral quasis expressions =>
      if Nat.ltb 0 (length expressions) then []
      else splitClasses (Js.join " " (templateParts quasis))
  | JSXExpressionContainer expression => extractClassNames expression
  | OtherNode _ => []
  end.

(* ===================================================================== *)
(** * processClasses *)
(* ===================================================================== *)

Record Issue := { original : string; canonical : option string; index : nat }.

Definition tryCatchC {A} (body : completion A) (handler : JsError → completion A)
  : completion A :=
  match body with
  | Normal a => Normal a
  | Throw e => handler e
  end.

(** [designSystem.canonicalizeCandidates([className], { rem })]; calling a
    missing method throws a [TypeError]. *)
Definition callCanonicalize (designSystem : DesignSystem) (candidates : list string)
    (rem : Z) : completion (list string) :=
  match canonicalizeCandidates designSystem with
  | Some f => f candidates rem
  | None => Throw (Error "designSystem.canonicalizeCandidates is not a function")
  end.

(** The [for] loop of [processClasses], from index [i] on, [classNames] being
    the tokens from that index. *)
Fixpoint collectIssues (designSystem : DesignSystem) (rootFontSize : Z)
    (classNames : list string) (i : nat) (issues : list Issue)
  : completion (list Issue) :=
  match classNames with
  | [] => mret issues
  | className :: rest =>
      issues' ← tryCatchC
        (candidates ← callCanonicalize designSystem [className] rootFontSize;
         let canonicalized := candidates !! 0%nat in
         if decide (canonicalized = Some className) then mret issues
         else mret (issues ++
                [{| original := className; canonical := canonicalized; index := i |}]))
        (λ _, mret issues);
      collectIssues designSystem rootFontSize rest (S i) issues'
  end.

(** [issues.forEach((issue) => canonicalMap.set(issue.original, issue.canonical))]. *)
Definition buildCanonicalMap (issues : list Issue) : gmap string (option string) :=
  foldl (λ canonicalMap issue, <[original issue := canonical issue]> canonicalMap)
    ∅ issues.

(** [canonicalMap.get(className) || className]. *)
Definition fixClassName (canonicalMap : gmap string (option string))
    (className : string) : string :=
  match canonicalMap !! className with
  | Some (Some replacement) =>
      if Js.truthy replacement then replacement else className
  | _ => className
  end.

Definition fixedClassNames (issues : list Issue) (classNames : list string)
  : list string :=
  map (fixClassName (buildCanonicalMap issues)) classNames.

Definition isTemplateLiteral (n : Node) : bool :=
  match n with TemplateLiteral _ _ => true | _ => false end.

Definition quoted (quote : ascii) (body : string) : string :=
  String quote (body +:+ String quote EmptyString).

(** The text the fix writes, from the joined class string. *)
Definition fixedTextOf (classNameValue : Node) (originalText fixedClassString : string)
  : string :=
  match Js.matchQuoted originalText with
  | Some quote => quoted quote fixedClassString
  | None =>
      if isTemplateLiteral classNameValue
      then quoted Js.backtick fixedClassString
      else
        match Js.matchStartQuote originalText with
        | Some quote =>
            if Js.lastIndexOfPositive quote originalText
            then quoted quote fixedClassString
            else fixedClassString
        | None => fixedClassString
        end
  end.

Definition issueData (issue : Issue) : ReportData :=
  NonCanonicalData (original issue) (canonical issue).

Fixpoint reportAll (rs : list Report) : M unit :=
  match rs with
  | [] => mret ()
  | r :: rest => report r;; reportAll rest
  end.

Definition processClasses (designSystem : DesignSystem) (classNames : list string)
    (classNameValue : Node) (sourceCode : SourceCode) (rootFontSize : Z) : M unit :=
  issues ← liftC (collectIssues designSystem rootFontSize classNames 0 []);
  match issues with
  | [] => mret ()
  | first :: others =>
      let originalText := getText sourceCode classNameValue in
      let fixedClassString := Js.join " " (fixedClassNames issues classNames) in
      let fixedText := fixedTextOf classNameValue originalText fixedClassString in
      report {| target := AtNode classNameValue; messageId := nonCanonical;
                data := issueData first;
                fix_ := Some (if decide (fixedText = originalText) then None
                              else Some (replaceText classNameValue fixedText)) |};;
      reportAll
        (map (λ issue, {| target := AtNode classNameValue; messageId := nonCanonical;
                          data := issueData issue; fix_ := None |}) others)
  end.

(* ===================================================================== *)
(** * The rule: create and its JSXAttribute visitor *)
(* ===================================================================== *)

Definition hasCheckedType (n : Node) : bool :=
  match n with
  | Literal _ | TemplateLiteral _ _ | JSXExpressionContainer _ => true
  | OtherNode _ => false
  end.

(** The [JSXAttribute(node)] visitor that [create] returns. *)
Definition JSXAttributeVisitor (h : Host) (context : Context) (cssPath : string)
    (rootFontSize : Z) (sourceCode : SourceCode) (node : JSXAttribute) : M unit :=
  if negb (String.eqb (attr_name node) "className") then mret ()
  else
    match attr_value node with
    | None => mret ()
    | Some value =>
        let classNameValue :=
          match value with
          | JSXExpressionContainer expression => expression
          | _ => value
          end in
        if negb (hasCheckedType classNameValue) then mret ()
        else
          let classNames := extractClassNames classNameValue in
          if Nat.eqb (length classNames) 0 then mret ()
          else
            designSystem ← getDesignSystemSync h cssPath context;
            match designSystem with
            | None => swallow (getDesignSystemAsync h cssPath context)
            | Some ds =>
                match canonicalizeCandidates ds with
                | Some _ =>
                    processClasses ds classNames classNameValue sourceCode rootFontSize
                | None => mret ()
                end
            end
    end.

(** The visitors object: [{}] or [{ JSXAttribute }]. *)
Record Visitors := { JSXAttributeHandler : option (JSXAttribute → M unit) }.

Definition configError : Report :=
  {| target := AtLoc 1 0; messageId := cssNotFound;
     data := PathData "not specified"; fix_ := None |}.

Definition create (h : Host) (context : Context) : M Visitors :=
  let opts := default {| opt_cssPath := None; opt_rootFontSize := None |}
                (options context) in
  let rootFontSize :=
    match opt_rootFontSize opts with
    | Some n => if Z.eqb n 0 then 16%Z else n
    | None => 16%Z
    end in
  let sourceCode := getSourceCode context in
  let missing : M Visitors :=
    report configError;; mret {| JSXAttributeHandler := None |} in
  match opt_cssPath opts with
  | None => missing
  | Some cssPath =>
      if negb (Js.truthy cssPath) then missing
      else mret {| JSXAttributeHandler :=
                     Some (JSXAttributeVisitor h context cssPath rootFontSize sourceCode) |}
  end.

(* ===================================================================== *)
(** * The linter and the event loop around the rule *)
(* ===================================================================== *)

Fixpoint visitAll (visit : JSXAttribute → M unit) (nodes : list JSXAttribute) : M unit :=
  match nodes with
  | [] => mret ()
  | node :: rest => visit node;; visitAll visit rest
  end.

(** Linting one file: the linter calls [create] once, then the visitor
    (when there is one) on each [JSXAttribute] node of the file in turn. *)
Definition lintFile (h : Host) (context : Context) (nodes : list JSXAttribute) : M unit :=
  visitors ← create h context;
  match JSXAttributeHandler visitors with
  | None => mret ()
  | Some visit => visitAll visit nodes
  end.

(** What happens between two turns of the event loop: a file is linted (to
    completion), or a load promise that has not settled fulfils or rejects. *)
Inductive Event :=
  | EvLint (context : Context) (nodes : list JSXAttribute)
  | EvFulfil (p : Promise) (ds : DesignSystem)
  | EvReject (p : Promise) (error : JsError).

Definition isPending (p : Promise) (w : World) : bool :=
  existsb (Nat.eqb p) (pending w).

Definition settle (p : Promise) (w : World) : World :=
  {| vars := vars w; pending := List.filter (λ q, negb (Nat.eqb p q)) (pending w);
     nextPromise := nextPromise w; reported := reported w |}.

Definition stepEvent (h : Host) (ev : Event) (w : World) : World :=
  match ev with
  | EvLint context nodes => (lintFile h context nodes w).2
  | EvFulfil p ds => if isPending p w then onFulfilled ds (settle p w) else w
  | EvReject p error => if isPending p w then onRejected error (settle p w) else w
  end.

Definition runEvents (h : Host) (evs : list Event) (w : World) : World :=
  foldl (λ w ev, stepEvent h ev w) w evs.

(* ===================================================================== *)
(** * A concrete host, design system and source files, for examples *)
(* ===================================================================== *)

Module Sample.

Definition slash : ascii := ascii_of_nat 47.

Definition isAbsolute (p : string) : bool :=
  match p with
  | String c _ => Ascii.eqb c slash
  | EmptyString => false
  end.

(** The text before the last slash, when there is a slash. *)
Fixpoint beforeLastSlash (p : string) : option string :=
  match p with
  | EmptyString => None
  | String c rest =>
      match beforeLastSlash rest with
      | Some d => Some (String c d)
      | None => if Ascii.eqb c slash then Some EmptyString else None
      end
  end.

Definition dirname (p : string) : string :=
  match beforeLastSlash p with
  | Some EmptyString => "/"
  | Some d => d
  | None => "."
  end.

(** [path.resolve(base, rel)] for an absolute [base] and a [rel] that is
    absolute or a plain relative name. *)
Definition resolve (base rel : string) : string :=
  if isAbsolute rel then rel else base +:+ "/" +:+ rel.

(** The file system: two stylesheets, and a directory ([None]). *)
Definition files : list (string * option string) :=
  [("/proj/a/styles.css", Some "@import 'tailwindcss';");
   ("/proj/b/styles.css", Some "@import 'tailwindcss'; @theme { --spacing: 1px; }");
   ("/proj/a/styles", None)].

Definition fileEntry (p : string) : option (option string) :=
  snd <$> List.find (λ f, String.eqb (fst f) p) files.

(** A POSIX host whose working directory is [/proj] and whose file system
    holds [files]. *)
Definition host : Host :=
  {| path_isAbsolute := λ p, Normal (isAbsolute p);
     path_dirname := λ p, Normal (dirname p);
     path_resolve := λ base rel, Normal (resolve base rel);
     fs_existsSync := λ p, Normal (bool_decide (is_Some (fileEntry p)));
     fs_readFileSync := λ p,
       match fileEntry p with
       | Some (Some content) => Normal content
       | Some None => Throw (Error "EISDIR: illegal operation on a directory, read")
       | None => Throw (Error "ENOENT: no such file or directory")
       end;
     process_cwd := Normal "/proj";
     loadDesignSystem := λ _ _, Normal () |}.

(** A canonicalization that knows two arbitrary-value spellings and throws
    on one malformed candidate. *)
Definition canonicalizeOne (candidate : string) : completion string :=
  if String.eqb candidate "p-4px" then Normal "p-1"
  else if String.eqb candidate "m-2rem" then Normal "m-8"
  else if String.eqb candidate "[boom" then Throw (Error "Invalid candidate")
  else Normal candidate.

Fixpoint canonicalizeAll (candidates : list string) : completion (list string) :=
  match candidates with
  | [] => Normal []
  | c :: rest =>
      c' ← canonicalizeOne c;
      rest' ← canonicalizeAll rest;
      Normal (c' :: rest')
  end.

Definition designSystem : DesignSystem :=
  {| canonicalizeCandidates := Some (λ candidates _, canonicalizeAll candidates) |}.

(** The source text of a node: string literals in double quotes, template
    literals without expressions in backticks. *)
Definition sourceText (n : Node) : string :=
  match n with
  | Literal (StringValue s) => quoted (ascii_of_nat 34) s
  | TemplateLiteral [{| cooked := Some s |}] [] => quoted Js.backtick s
  | _ => "{expr}"
  end.

Definition sourceCode : SourceCode := {| getText := sourceText |}.

Definition contextIn (filename : string) (cssPath : option string) : Context :=
  {| options := Some {| opt_cssPath := cssPath; opt_rootFontSize := None |};
     getFilename := Normal filename;
     getSourceCode := sourceCode |}.

Definition className (s : string) : JSXAttribute :=
  {| attr_name := "className"; attr_value := Some (Literal (StringValue s)) |}.

(** Two files of two packages, each next to a [styles.css] of its own, both
    configured with the relative path [styles.css]. *)
Definition contextA : Context := contextIn "/proj/a/App.jsx" (Some "styles.css").
Definition contextB : Context := contextIn "/proj/b/App.jsx" (Some "styles.css").

(** The first file has been linted: the load of its stylesheet is in flight. *)
Definition loadingWorld : World :=
  runEvents host [EvLint contextA [className "p-4px"]] initialWorld.

(** The worlds of a run with two stylesheets: the first file starts a load,
    a file configured with a missing stylesheet is linted, then the first
    load fulfils. *)
Definition staleRun : list Event :=
  [EvLint (contextIn "/proj/a/App.jsx" (Some "styles.css")) [className "p-4px"];
   EvLint (contextIn "/proj/a/App.jsx" (Some "missing.css")) [className "p-4px"];
   EvFulfil 0 designSystem].

(** Then that load has fulfilled. *)
Definition loadedWorld : World :=
  runEvents host [EvFulfil 0 designSystem] loadingWorld.

(** A file configured with a stylesheet that does not exist, and the world
    after it has been linted. *)
Definition contextMissing : Context := contextIn "/proj/a/App.jsx" (Some "missing.css").
Definition failedWorld : World :=
  runEvents host [EvLint contextMissing [className "p-4px"]] initialWorld.

(** A class attribute with a malformed candidate among its tokens, and the
    same tokens in a template literal that spans two lines. *)
Definition mixedClasses : Node :=
  Literal (StringValue " p-4px  [boom m-2rem flex ").
Definition twoLines : Node :=
  TemplateLiteral
    [{| cooked := Some ("p-4px [boom" +:+ String (ascii_of_nat 10) "  m-2rem flex") |}] [].

(** A file configured with a path that names a directory. *)
Definition contextDirectory : Context := contextIn "/proj/a/App.jsx" (Some "styles").

End Sample.

(* ===================================================================== *)
(** * Vocabulary of the statements *)
(* ===================================================================== *)

(** The world in which [getDesignSystemSync] takes its decisions. *)
Definition afterReset (cssPath : string) (w : World) : World :=
  (resetIfPathChanged cssPath w).2.

(** No variable is set: a load has to be attempted. *)
Definition nothingCached (v : ModuleVars) : Prop :=
  designSystemCache v = None ∧ designSystemError v = None ∧
  designSystemPromise v = None.

(** [context.options[0]?.cssPath]. *)
Definition configuredCssPath (context : Context) : option string :=
  options context ≫= opt_cssPath.

(** The world after one more problem has been reported. *)
Definition withReport (w : World) (r : Report) : World :=
  {| vars := vars w; pending := pending w; nextPromise := nextPromise w;
     reported := reported w ++ [r] |}.

(** Two worlds that differ at most in the memoized handle, promise and
    error and in the path they were memoized for. *)
Definition sameOutsideCache (w1 w2 : World) : Prop :=
  pending w1 = pending w2 ∧ nextPromise w1 = nextPromise w2 ∧
  reported w1 = reported w2.

(** A failed load is cached for [cssPath]: the variables are current for it,
    an error is stored and no handle is. *)
Definition failureCached (cssPath : string) (w : World) : Prop :=
  cssPathCache (vars w) = Some cssPath ∧
  is_Some (designSystemError (vars w)) ∧
  designSystemCache (vars w) = None.

(** Files linted one after the other, with nothing settling in between. *)
Definition lintEvents (files : list (Context * list JSXAttribute)) : list Event :=
  map (λ file, EvLint file.1 file.2) files.

(** The issue the loop of [processClasses] records for the token at index
    [i], if any: none when the call throws, none when the first candidate
    returned is the token itself. *)
Definition issueAt (designSystem : DesignSystem) (rootFontSize : Z) (i : nat)
    (className : string) : option Issue :=
  match callCanonicalize designSystem [className] rootFontSize with
  | Normal candidates =>
      if decide (candidates !! 0%nat = Some className) then None
      else Some {| original := className; canonical := candidates !! 0%nat; index := i |}
  | Throw _ => None
  end.

(** The issues of the tokens [classNames], the first of which has index [i]. *)
Fixpoint issuesFrom (designSystem : DesignSystem) (rootFontSize : Z) (i : nat)
    (classNames : list string) : list Issue :=
  match classNames with
  | [] => []
  | className :: rest =>
      option_list (issueAt designSystem rootFontSize i className)
        ++ issuesFrom designSystem rootFontSize (S i) rest
  end.

(** A string without white space. *)
Definition noWhiteSpace (s : string) : bool :=
  Js.allChars (λ c, negb (Js.isWhiteSpace c)) s.

(** A class-name token: not empty and without white space. *)
Definition isToken (s : string) : bool := Js.truthy s && noWhiteSpace s.

(** The world after the problems [rs] have been reported, in that order. *)
Definition appendReports (w : World) (rs : list Report) : World :=
  {| vars := vars w; pending := pending w; nextPromise := nextPromise w;
     reported := reported w ++ rs |}.

(** An event of a run in which every file is configured with [cssPath]. *)
Definition usesStylesheet (cssPath : string) (ev : Event) : Prop :=
  match ev with
  | EvLint context _ => configuredCssPath context = Some cssPath
  | _ => True
  end.

(** What holds of the cache in such a run: the variables are current for
    [cssPath] unless nothing was ever looked up; a stored error excludes a
    stored handle; at most one load is in flight, it is the stored promise,
    and while it is in flight neither a handle nor an error is stored. *)
Definition oneLoad (cssPath : string) (w : World) : Prop :=
  (cssPathCache (vars w) = Some cssPath ∨
   (cssPathCache (vars w) = None ∧ nothingCached (vars w) ∧ pending w = [])) ∧
  (is_Some (designSystemError (vars w)) → designSystemCache (vars w) = None) ∧
  (pending w = [] ∨
   ∃ p, pending w = [p] ∧ designSystemPromise (vars w) = Some p ∧
        designSystemCache (vars w) = None ∧ designSystemError (vars w) = None).

(** The world after a load has been started. *)
Definition withLoad (w : World) : World :=
  {| vars := setPromise (nextPromise w) (vars w);
     pending := nextPromise w :: pending w;
     nextPromise := S (nextPromise w); reported := reported w |}.

(** A string made of white space only (the empty string included). *)
Definition allWhiteSpace (s : string) : bool := Js.allChars Js.isWhiteSpace s.

(** The test of the [filter] in [extractClassNames]. *)
Definition keptByFilter (cls : string) : bool :=
  Nat.ltb 0 (String.length (Js.trim cls)).

(** No handle is cached for [cssPath]: the lookup would answer [null]. *)
Definition noHandleFor (cssPath : string) (w : World) : Prop :=
  designSystemCache (vars (afterReset cssPath w)) = None.

(** At most one load promise has been created, and it is the stored one. *)
Definition loadedOnce (w : World) : Prop :=
  (nextPromise w = 0%nat ∧ designSystemPromise (vars w) = None) ∨
  (nextPromise w = 1%nat ∧ designSystemPromise (vars w) = Some 0%nat).

(** Two worlds that differ at most in the problems reported. *)
Definition sameCache (w1 w2 : World) : Prop :=
  vars w1 = vars w2 ∧ pending w1 = pending w2 ∧ nextPromise w1 = nextPromise w2.

(** A problem about a class name, reported on a node. *)
Definition isClassProblem (r : Report) : Prop :=
  messageId r = nonCanonical ∧ ∃ node, target r = AtNode node.

(** The loop of [processClasses] records no issue for [className]: the call
    throws, or the first candidate returned is [className] itself. *)
Definition raisesNoIssue (designSystem : DesignSystem) (rootFontSize : Z)
    (className : string) : Prop :=
  (∃ e, callCanonicalize designSystem [className] rootFontSize = Throw e) ∨
  (∃ candidates,
     callCanonicalize designSystem [className] rootFontSize = Normal candidates ∧
     candidates !! 0%nat = Some className).

(** [canonicalizeCandidates] behaves as a canonicalization on [className]: if
    the call returns, its first candidate is a non-empty string without white
    space that the function maps to itself. *)
Definition canonicalizesWell (designSystem : DesignSystem) (rootFontSize : Z)
    (className : string) : Prop :=
  ∀ candidates,
    callCanonicalize designSystem [className] rootFontSize = Normal candidates →
    ∃ replacement,
      candidates !! 0%nat = Some replacement ∧
      isToken replacement = true ∧
      ∃ again, callCanonicalize designSystem [replacement] rootFontSize = Normal again ∧
               again !! 0%nat = Some replacement.

(* ===================================================================== *)
(** * Basic facts about the monad and the cache *)
(* ===================================================================== *)

Ltac unfold_monad :=
  unfold mbind, mret, M_bind, M_ret, completion_bind, completion_ret,
    liftC, tryCatch, readVars, modifyVars, swallow in *.

(** The variables are "current" for [cssPath] when the reset does not fire. *)
Lemma resetIfPathChanged_same (cssPath : string) (w : World) :
  cssPathCache (vars w) = Some cssPath →
  resetIfPathChanged cssPath w = (Normal (), w).
Proof. intros Hc. unfold resetIfPathChanged. by rewrite decide_True. Qed.

Lemma resetIfPathChanged_other (cssPath : string) (w : World) :
  cssPathCache (vars w) ≠ Some cssPath →
  resetIfPathChanged cssPath w = (Normal (), withVars w (resetVars cssPath)).
Proof. intros Hc. unfold resetIfPathChanged. by rewrite decide_False. Qed.

(** What [getDesignSystemSync] does once the variables are current. *)
Lemma getDesignSystemSync_current (h : Host) (cssPath : string) (context : Context)
    (w : World) :
  cssPathCache (vars w) = Some cssPath →
  getDesignSystemSync h cssPath context w =
    match designSystemCache (vars w) with
    | Some ds => (Normal (Some ds), w)
    | None =>
        match designSystemError (vars w) with
        | Some _ => (Normal None, w)
        | None =>
            match designSystemPromise (vars w) with
            | Some _ => (Normal None, w)
            | None =>
                match loadAttempt h cssPath context w with
                | (Normal r, w') => (Normal r, w')
                | (Throw e, w') => (Normal None, withVars w' (setError e (vars w')))
                end
            end
        end
    end.
Proof.
  intros Hc. unfold getDesignSystemSync.
  unfold mbind at 1, M_bind. rewrite (resetIfPathChanged_same _ _ Hc).
  unfold_monad.
  destruct (designSystemCache (vars w)); [done|].
  destruct (designSystemError (vars w)); [done|].
  destruct (designSystemPromise (vars w)); [done|].
  by destruct (loadAttempt h cssPath context w) as [[r|e] w'].
Qed.

Lemma afterReset_current (cssPath : string) (w : World) :
  cssPathCache (vars (afterReset cssPath w)) = Some cssPath.
Proof.
  unfold afterReset, resetIfPathChanged. by case_decide.
Qed.

Lemma getDesignSystemSync_afterReset (h : Host) (cssPath : string)
    (context : Context) (w : World) :
  getDesignSystemSync h cssPath context w =
  getDesignSystemSync h cssPath context (afterReset cssPath w).
Proof.
  unfold getDesignSystemSync at 1.
  unfold mbind at 1, M_bind.
  assert (resetIfPathChanged cssPath w = (Normal (), afterReset cssPath w)) as ->.
  { unfold afterReset, resetIfPathChanged. by case_decide. }
  rewrite (getDesignSystemSync_current h cssPath context _ (afterReset_current _ _)).
  unfold_monad.
  destruct (designSystemCache (vars (afterReset cssPath w))); [done|].
  destruct (designSystemError (vars (afterReset cssPath w))); [done|].
  destruct (designSystemPromise (vars (afterReset cssPath w))); [done|].
  by destruct (loadAttempt h cssPath context (afterReset cssPath w)) as [[r|e] w'].
Qed.

(** The string primitives on small inputs, as JavaScript evaluates them. *)
Example split_ws_example :
  Js.split_ws " a  b " = [EmptyString; "a"; "b"; EmptyString].
Proof. reflexivity. Qed.

Example split_ws_empty : Js.split_ws EmptyString = [EmptyString].
Proof. reflexivity. Qed.

Example trim_example : Js.trim "  a b  " = "a b".
Proof. reflexivity. Qed.

Example matchQuoted_example :
  Js.matchQuoted "'a b'" = Some (ascii_of_nat 39) ∧ Js.matchQuoted "'" = None ∧
  Js.matchQuoted ("'a" +:+ String (ascii_of_nat 10) "b'") = None.
Proof. repeat split; reflexivity. Qed.

Example extractClassNames_template :
  extractClassNames
    (TemplateLiteral [{| cooked := Some "  a b " |}; {| cooked := Some "c" |}] [])
  = ["a"; "b"; "c"].
Proof. reflexivity. Qed.

(* ===================================================================== *)
(** * The lookup never throws, and answers that nothing is there yet while
      a load is in flight *)
(* ===================================================================== *)

(** C9. [getDesignSystemSync] never throws: for every host, path, context and
    world it ends normally with a handle or [null]; and when the [try] block
    is entered and anything in it throws [e] (resolving the path, the
    existence check, reading the stylesheet, calling the loader), the call
    answers [null] and [designSystemError] holds [e]. *)
Theorem getDesignSystemSync_never_throws (h : Host) (cssPath : string)
    (context : Context) (w : World) :
  ∃ (result : option DesignSystem) (w' : World),
    getDesignSystemSync h cssPath context w = (Normal result, w') ∧
    ∀ e w1,
      nothingCached (vars (afterReset cssPath w)) →
      loadAttempt h cssPath context (afterReset cssPath w) = (Throw e, w1) →
      result = None ∧ w' = withVars w1 (setError e (vars w1)) ∧
      designSystemError (vars w') = Some e.
Proof.
  rewrite getDesignSystemSync_afterReset.
  rewrite (getDesignSystemSync_current _ _ _ _ (afterReset_current cssPath w)).
  set (w0 := afterReset cssPath w).
  destruct (designSystemCache (vars w0)) as [ds|] eqn:Hcache.
  { eexists _, _. split; [done|]. intros e w1 (Hc & _). congruence. }
  destruct (designSystemError (vars w0)) as [err|] eqn:Herr.
  { eexists _, _. split; [done|]. intros e w1 (_ & He & _). congruence. }
  destruct (designSystemPromise (vars w0)) as [p|] eqn:Hp.
  { eexists _, _. split; [done|]. intros e w1 (_ & _ & Hp'). congruence. }
  destruct (loadAttempt h cssPath context w0) as [[r|e0] w1'] eqn:Hload.
  - eexists _, _. split; [done|]. intros e w1 _ [=].
  - eexists _, _. split; [done|]. intros e w1 _ [= -> ->]. done.
Qed.

(** A throw of the host inside [resolveCssPath] is a throw of the [try] block. *)
Lemma loadAttempt_resolve_throws (h : Host) (cssPath : string) (context : Context)
    (w : World) (e : JsError) :
  resolveCssPath h cssPath context = Throw e →
  loadAttempt h cssPath context w = (Throw e, w).
Proof. intros Hr. unfold loadAttempt. unfold_monad. by rewrite Hr. Qed.

(** A throw of [fs.readFileSync] is a throw of the [try] block. *)
Lemma loadAttempt_read_throws (h : Host) (cssPath : string) (context : Context)
    (w : World) (resolved : string) (e : JsError) :
  resolveCssPath h cssPath context = Normal (Some resolved) →
  Js.truthy resolved = true →
  fs_existsSync h resolved = Normal true →
  fs_readFileSync h resolved = Throw e →
  loadAttempt h cssPath context w = (Throw e, w).
Proof.
  intros Hr Ht Hx Hread. unfold loadAttempt. unfold_monad.
  by rewrite Hr, Ht, Hx, Hread.
Qed.

(** C8. While a load is in flight for the current [cssPath] (a promise is
    stored, no handle, no error), [getDesignSystemSync] answers [null] at
    once and changes nothing. *)
Theorem getDesignSystemSync_pending (h : Host) (cssPath : string)
    (context : Context) (w : World) (p : Promise) :
  cssPathCache (vars w) = Some cssPath →
  designSystemPromise (vars w) = Some p →
  designSystemCache (vars w) = None →
  designSystemError (vars w) = None →
  getDesignSystemSync h cssPath context w = (Normal None, w).
Proof.
  intros Hpath Hp Hc He.
  rewrite (getDesignSystemSync_current _ _ _ _ Hpath). by rewrite Hc, He, Hp.
Qed.

(* ===================================================================== *)
(** * Missing configuration; template literals with expressions *)
(* ===================================================================== *)

(** C4. Created without [cssPath], the rule reports the configuration error
    once, from [create] itself, and returns no visitor: linting the file, with
    whatever attributes it holds, reports that one problem and nothing else
    and leaves the cache alone. *)
Theorem create_without_cssPath (h : Host) (context : Context) (w : World) :
  configuredCssPath context = None →
  create h context w = (Normal {| JSXAttributeHandler := None |}, withReport w configError) ∧
  ∀ nodes, lintFile h context nodes w = (Normal (), withReport w configError).
Proof.
  intros Hcfg.
  assert (create h context w
          = (Normal {| JSXAttributeHandler := None |}, withReport w configError)) as Hcreate.
  { unfold create, configuredCssPath in *.
    destruct (options context) as [o|]; simpl in *; [rewrite Hcfg|]; done. }
  split; [done|]. intros nodes. unfold lintFile.
  unfold mbind at 1, M_bind. by rewrite Hcreate.
Qed.

(** The same holds for an empty [cssPath], which is falsy as well. *)
Lemma create_with_empty_cssPath (h : Host) (context : Context) (w : World) :
  configuredCssPath context = Some EmptyString →
  ∀ nodes, lintFile h context nodes w = (Normal (), withReport w configError).
Proof.
  intros Hcfg nodes. unfold lintFile, create, configuredCssPath in *.
  destruct (options context) as [o|]; simpl in *; [|done].
  by rewrite Hcfg.
Qed.

(** C1. A template literal with at least one interpolated expression yields no
    class names, and the visitor, given it as the attribute value (bare or in
    its expression container), returns with the world as it was: no lookup,
    no report, no fix. *)
Theorem template_with_expressions_skipped (h : Host) (context : Context)
    (cssPath : string) (rootFontSize : Z) (sourceCode : SourceCode)
    (quasis : list TemplateElement) (expressions : list Node)
    (name : string) (w : World) :
  expressions ≠ [] →
  extractClassNames (TemplateLiteral quasis expressions) = [] ∧
  JSXAttributeVisitor h context cssPath rootFontSize sourceCode
    {| attr_name := name;
       attr_value := Some (JSXExpressionContainer (TemplateLiteral quasis expressions)) |} w
    = (Normal (), w) ∧
  JSXAttributeVisitor h context cssPath rootFontSize sourceCode
    {| attr_name := name;
       attr_value := Some (TemplateLiteral quasis expressions) |} w
    = (Normal (), w).
Proof.
  intros Hne.
  assert (extractClassNames (TemplateLiteral quasis expressions) = []) as Hex.
  { destruct expressions; [done|]. reflexivity. }
  split; [done|].
  split; unfold JSXAttributeVisitor; cbn [attr_name attr_value hasCheckedType negb];
    rewrite Hex; by destruct (String.eqb name "className").
Qed.

(* ===================================================================== *)
(** * What the cache is keyed by *)
(* ===================================================================== *)

Lemma getDesignSystemSync_other (h : Host) (cssPath : string) (context : Context)
    (w : World) :
  cssPathCache (vars w) ≠ Some cssPath →
  getDesignSystemSync h cssPath context w =
  getDesignSystemSync h cssPath context (withVars w (resetVars cssPath)).
Proof.
  intros Hc. rewrite getDesignSystemSync_afterReset.
  unfold afterReset. by rewrite (resetIfPathChanged_other _ _ Hc).
Qed.

(** C7, as the code has it. The cache is keyed by the configured [cssPath]
    string (the one of the previous lookup, in [cssPathCache]). When the
    string is the same the stored handle, error and promise are reused: a
    stored handle is returned, a stored error or promise answers [null], and
    the world does not change. When it differs they are dropped: the lookup
    behaves as from the reset variables, whatever had been stored. *)
Theorem cache_keyed_by_configured_cssPath (h : Host) (cssPath : string)
    (context : Context) (w : World) :
  (cssPathCache (vars w) = Some cssPath →
     afterReset cssPath w = w ∧
     (∀ ds, designSystemCache (vars w) = Some ds →
            getDesignSystemSync h cssPath context w = (Normal (Some ds), w)) ∧
     (designSystemCache (vars w) = None →
      is_Some (designSystemError (vars w)) ∨ is_Some (designSystemPromise (vars w)) →
      getDesignSystemSync h cssPath context w = (Normal None, w))) ∧
  (cssPathCache (vars w) ≠ Some cssPath →
     vars (afterReset cssPath w) = resetVars cssPath ∧
     ∀ w2, sameOutsideCache w w2 → cssPathCache (vars w2) ≠ Some cssPath →
           getDesignSystemSync h cssPath context w
           = getDesignSystemSync h cssPath context w2).
Proof.
  split.
  - intros Hc. split; [|split].
    + unfold afterReset. by rewrite (resetIfPathChanged_same _ _ Hc).
    + intros ds Hds. rewrite (getDesignSystemSync_current _ _ _ _ Hc). by rewrite Hds.
    + intros Hnone Hsome. rewrite (getDesignSystemSync_current _ _ _ _ Hc).
      rewrite Hnone. destruct (designSystemError (vars w)); [done|].
      destruct Hsome as [[? [=]]|[p Hp]]. by rewrite Hp.
  - intros Hc. split.
    + unfold afterReset. by rewrite (resetIfPathChanged_other _ _ Hc).
    + intros w2 (Hp & Hn & Hr) Hc2.
      rewrite (getDesignSystemSync_other _ _ _ _ Hc).
      rewrite (getDesignSystemSync_other _ _ _ _ Hc2).
      f_equal. unfold withVars. by rewrite Hp, Hn, Hr.
Qed.

(** C7, as stated, fails both ways. The two files resolve the same configured
    string to different stylesheets, and the handle loaded for the first is
    handed out for the second; the absolute spelling of the first file's
    stylesheet resolves to the very same path, and the handle is dropped and
    a new load started. *)
Lemma cache_not_keyed_by_resolved_path :
  resolveCssPath Sample.host "styles.css" Sample.contextA
    = Normal (Some "/proj/a/styles.css") ∧
  resolveCssPath Sample.host "styles.css" Sample.contextB
    = Normal (Some "/proj/b/styles.css") ∧
  designSystemCache (vars Sample.loadedWorld) = Some Sample.designSystem ∧
  getDesignSystemSync Sample.host "styles.css" Sample.contextB Sample.loadedWorld
    = (Normal (Some Sample.designSystem), Sample.loadedWorld) ∧
  resolveCssPath Sample.host "/proj/a/styles.css" Sample.contextA
    = Normal (Some "/proj/a/styles.css") ∧
  (getDesignSystemSync Sample.host "/proj/a/styles.css" Sample.contextA
     Sample.loadedWorld).1 = Normal None ∧
  vars (getDesignSystemSync Sample.host "/proj/a/styles.css" Sample.contextA
          Sample.loadedWorld).2
    = setPromise 1 (resetVars "/proj/a/styles.css").
Proof. repeat split; vm_compute; reflexivity. Qed.

(** The reset drops the stored promise but not its callbacks: a load that
    was started for one stylesheet and fulfils after another one has been
    configured still fills [designSystemCache]. The theorem above says
    nothing about such a promise. *)
Lemma stale_fulfilment_fills_cache :
  cssPathCache (vars (runEvents Sample.host Sample.staleRun initialWorld))
    = Some "missing.css" ∧
  designSystemCache (vars (runEvents Sample.host Sample.staleRun initialWorld))
    = Some Sample.designSystem.
Proof. split; reflexivity. Qed.

Lemma cache_keyed_by_configured_cssPath_witness :
  getDesignSystemSync Sample.host "styles.css" Sample.contextB Sample.loadedWorld
    = (Normal (Some Sample.designSystem), Sample.loadedWorld) ∧
  vars (afterReset "/proj/a/styles.css" Sample.loadedWorld)
    = resetVars "/proj/a/styles.css".
Proof.
  split.
  - apply (cache_keyed_by_configured_cssPath Sample.host "styles.css"
             Sample.contextB Sample.loadedWorld); reflexivity.
  - apply (cache_keyed_by_configured_cssPath Sample.host "/proj/a/styles.css"
             Sample.contextA Sample.loadedWorld). vm_compute. discriminate.
Defined.

Lemma getDesignSystemSync_pending_witness :
  getDesignSystemSync Sample.host "styles.css" Sample.contextB Sample.loadingWorld
    = (Normal None, Sample.loadingWorld).
Proof.
  apply (getDesignSystemSync_pending Sample.host "styles.css" Sample.contextB
           Sample.loadingWorld 0); reflexivity.
Defined.

Lemma getDesignSystemSync_never_throws_witness :
  ∃ result w',
    getDesignSystemSync Sample.host "styles" Sample.contextDirectory initialWorld
      = (Normal result, w') ∧
    result = None ∧
    designSystemError (vars w')
      = Some (Error "EISDIR: illegal operation on a directory, read").
Proof.
  destruct (getDesignSystemSync_never_throws Sample.host "styles"
              Sample.contextDirectory initialWorld) as (result & w' & Hrun & Hcaught).
  exists result, w'. split; [exact Hrun|].
  destruct (Hcaught (Error "EISDIR: illegal operation on a directory, read")
              (afterReset "styles" initialWorld)) as (Hres & _ & Herr).
  - vm_compute. repeat split.
  - reflexivity.
  - split; [exact Hres | exact Herr].
Defined.

Lemma create_without_cssPath_witness :
  lintFile Sample.host (Sample.contextIn "/proj/a/App.jsx" None)
    [Sample.className "p-4px m-2rem"] Sample.loadedWorld
  = (Normal (), withReport Sample.loadedWorld configError).
Proof.
  apply (create_without_cssPath Sample.host (Sample.contextIn "/proj/a/App.jsx" None)
           Sample.loadedWorld). reflexivity.
Defined.

Lemma template_with_expressions_skipped_witness :
  extractClassNames
    (TemplateLiteral [{| cooked := Some "p-4px " |}; {| cooked := Some EmptyString |}]
       [OtherNode "Identifier"]) = [] ∧
  JSXAttributeVisitor Sample.host Sample.contextA "styles.css" 16 Sample.sourceCode
    {| attr_name := "className";
       attr_value := Some (JSXExpressionContainer
         (TemplateLiteral [{| cooked := Some "p-4px " |}; {| cooked := Some EmptyString |}]
            [OtherNode "Identifier"])) |} Sample.loadedWorld
    = (Normal (), Sample.loadedWorld) ∧
  JSXAttributeVisitor Sample.host Sample.contextA "styles.css" 16 Sample.sourceCode
    {| attr_name := "className";
       attr_value := Some
         (TemplateLiteral [{| cooked := Some "p-4px " |}; {| cooked := Some EmptyString |}]
            [OtherNode "Identifier"]) |} Sample.loadedWorld
    = (Normal (), Sample.loadedWorld).
Proof.
  apply (template_with_expressions_skipped Sample.host Sample.contextA "styles.css" 16
           Sample.sourceCode
           [{| cooked := Some "p-4px " |}; {| cooked := Some EmptyString |}]
           [OtherNode "Identifier"] "className" Sample.loadedWorld).
  discriminate.
Defined.

(* ===================================================================== *)
(** * A failed load is terminal *)
(* ===================================================================== *)

Lemma visitAll_unchanged (visit : JSXAttribute → M unit) (w : World)
    (nodes : list JSXAttribute) :
  (∀ node, visit node w = (Normal (), w)) →
  visitAll visit nodes w = (Normal (), w).
Proof.
  intros Hvisit. induction nodes as [|node rest IH]; [done|].
  simpl. unfold mbind, M_bind. by rewrite Hvisit.
Qed.

Lemma getDesignSystemSync_failed (h : Host) (cssPath : string) (context : Context)
    (w : World) :
  failureCached cssPath w →
  getDesignSystemSync h cssPath context w = (Normal None, w).
Proof.
  intros (Hpath & [e He] & Hcache).
  rewrite (getDesignSystemSync_current _ _ _ _ Hpath). by rewrite Hcache, He.
Qed.

Lemma getDesignSystemAsync_failed (h : Host) (cssPath : string) (context : Context)
    (w : World) :
  failureCached cssPath w →
  getDesignSystemAsync h cssPath context w = (Normal (), w).
Proof.
  intros (Hpath & [e He] & Hcache). unfold getDesignSystemAsync.
  unfold mbind at 1, M_bind. rewrite (resetIfPathChanged_same _ _ Hpath).
  unfold_monad. by rewrite Hcache, He.
Qed.

Lemma JSXAttributeVisitor_failed (h : Host) (context : Context) (cssPath : string)
    (rootFontSize : Z) (sourceCode : SourceCode) (node : JSXAttribute) (w : World) :
  failureCached cssPath w →
  JSXAttributeVisitor h context cssPath rootFontSize sourceCode node w = (Normal (), w).
Proof.
  intros Hfailed. unfold JSXAttributeVisitor.
  destruct (negb (String.eqb (attr_name node) "className")); [done|].
  destruct (attr_value node) as [value|]; [|done].
  match goal with |- context [hasCheckedType ?n] => destruct (negb (hasCheckedType n)) end;
    [done|].
  match goal with |- context [Nat.eqb ?n 0] => destruct (Nat.eqb n 0) end; [done|].
  unfold mbind, M_bind. rewrite (getDesignSystemSync_failed _ _ _ _ Hfailed).
  unfold swallow. by rewrite (getDesignSystemAsync_failed _ _ _ _ Hfailed).
Qed.

Lemma lintFile_failed (h : Host) (context : Context) (cssPath : string)
    (nodes : list JSXAttribute) (w : World) :
  failureCached cssPath w →
  configuredCssPath context = Some cssPath →
  Js.truthy cssPath = true →
  lintFile h context nodes w = (Normal (), w).
Proof.
  intros Hfailed Hcfg Htruthy. unfold lintFile, create, configuredCssPath in *.
  destruct (options context) as [o|]; simpl in Hcfg; [|done].
  simpl. rewrite Hcfg, Htruthy. simpl.
  apply visitAll_unchanged. intros node. by apply JSXAttributeVisitor_failed.
Qed.

(** Once the failure of a load is cached for [cssPath] (the variables are
    current for it, an error is stored, no handle is), every lookup with that
    [cssPath] answers [null] without throwing, every call of the visitor
    returns normally, and neither changes the world: nothing is reported,
    nothing is fixed, no load is started again. So it stays through any
    number of files linted with that [cssPath] afterwards. *)
Theorem failed_load_is_terminal (h : Host) (cssPath : string) (w : World) :
  failureCached cssPath w →
  (∀ context, getDesignSystemSync h cssPath context w = (Normal None, w)) ∧
  (∀ context rootFontSize sourceCode node,
     JSXAttributeVisitor h context cssPath rootFontSize sourceCode node w
     = (Normal (), w)) ∧
  (∀ files,
     Js.truthy cssPath = true →
     Forall (λ file, configuredCssPath file.1 = Some cssPath) files →
     runEvents h (lintEvents files) w = w).
Proof.
  intros Hfailed. split; [|split].
  - intros context. by apply getDesignSystemSync_failed.
  - intros. by apply JSXAttributeVisitor_failed.
  - intros files Htruthy Hfiles. induction Hfiles as [|[context nodes] rest Hcfg _ IH];
      [done|].
    simpl in *. by rewrite (lintFile_failed _ _ _ _ _ Hfailed Hcfg Htruthy).
Qed.

(** The three ways a load fails leave its failure cached. *)
Lemma not_found_is_cached (h : Host) (cssPath : string) (context : Context)
    (w : World) (resolved : string) :
  nothingCached (vars (afterReset cssPath w)) →
  resolveCssPath h cssPath context = Normal (Some resolved) →
  fs_existsSync h resolved = Normal false →
  failureCached cssPath (getDesignSystemSync h cssPath context w).2.
Proof.
  intros (Hc & He & Hp) Hr Hx.
  rewrite getDesignSystemSync_afterReset.
  rewrite (getDesignSystemSync_current _ _ _ _ (afterReset_current cssPath w)).
  rewrite Hc, He, Hp. unfold loadAttempt. unfold_monad. rewrite Hr, Hx.
  destruct (negb (Js.truthy resolved)); simpl;
    (split; [apply afterReset_current|split; [by eexists|done]]).
Qed.

Lemma thrown_error_is_cached (h : Host) (cssPath : string) (context : Context)
    (w w1 : World) (e : JsError) :
  nothingCached (vars (afterReset cssPath w)) →
  loadAttempt h cssPath context (afterReset cssPath w) = (Throw e, w1) →
  vars w1 = vars (afterReset cssPath w) →
  failureCached cssPath (getDesignSystemSync h cssPath context w).2.
Proof.
  intros (Hc & He & Hp) Hload Hvars.
  rewrite getDesignSystemSync_afterReset.
  rewrite (getDesignSystemSync_current _ _ _ _ (afterReset_current cssPath w)).
  rewrite Hc, He, Hp, Hload. simpl. rewrite Hvars.
  split; [apply afterReset_current|split; [by eexists|done]].
Qed.

Lemma rejection_is_cached (cssPath : string) (w : World) (e : JsError) :
  cssPathCache (vars w) = Some cssPath →
  designSystemCache (vars w) = None →
  failureCached cssPath (onRejected e w).
Proof. intros Hpath Hcache. split; [done|split; [by eexists|done]]. Qed.

(** C5 does not hold of the code in a run with two stylesheets. A file
    starts the load of [styles.css]; a file configured with [missing.css]
    resets the variables and caches the failure (not found), and a lookup
    answers [null]. Then the first load fulfils: its callback stores the
    handle, the lookup tests the handle before the error, and the next lookup
    with [missing.css] returns the handle of the other stylesheet, with the
    error still stored; the lint reports and fixes. *)
Lemma stale_load_revives_failed_stylesheet :
  failureCached "missing.css" (runEvents Sample.host (take 2 Sample.staleRun) initialWorld) ∧
  getDesignSystemSync Sample.host "missing.css" Sample.contextMissing
    (runEvents Sample.host (take 2 Sample.staleRun) initialWorld)
    = (Normal None, runEvents Sample.host (take 2 Sample.staleRun) initialWorld) ∧
  designSystemError (vars (runEvents Sample.host Sample.staleRun initialWorld))
    = Some (Error "CSS file not found: missing.css") ∧
  getDesignSystemSync Sample.host "missing.css" Sample.contextMissing
    (runEvents Sample.host Sample.staleRun initialWorld)
    = (Normal (Some Sample.designSystem),
       runEvents Sample.host Sample.staleRun initialWorld) ∧
  reported
    (lintFile Sample.host Sample.contextMissing [Sample.className "p-4px"]
       (runEvents Sample.host Sample.staleRun initialWorld)).2
    = [{| target := AtNode (Literal (StringValue "p-4px"));
          messageId := nonCanonical;
          data := NonCanonicalData "p-4px" (Some "p-1");
          fix_ := Some (Some (replaceText (Literal (StringValue "p-4px"))
                                (quoted (ascii_of_nat 34) "p-1"))) |}].
Proof.
  split; [|repeat split; reflexivity].
  split; [reflexivity|]. split; [eexists; reflexivity|reflexivity].
Qed.

Lemma failed_load_is_terminal_witness :
  failureCached "missing.css" Sample.failedWorld ∧
  getDesignSystemSync Sample.host "missing.css" Sample.contextMissing Sample.failedWorld
    = (Normal None, Sample.failedWorld) ∧
  runEvents Sample.host
    (lintEvents [(Sample.contextMissing, [Sample.className "p-4px"; Sample.className "m-2rem"]);
                 (Sample.contextMissing, [Sample.className "p-4px flex"])])
    Sample.failedWorld = Sample.failedWorld.
Proof.
  assert (failureCached "missing.css" Sample.failedWorld) as Hfailed.
  { split; [reflexivity|]. split; [eexists; reflexivity|reflexivity]. }
  split; [exact Hfailed|].
  destruct (failed_load_is_terminal Sample.host "missing.css" Sample.failedWorld Hfailed)
    as (Hsync & _ & Hfiles).
  split; [apply Hsync|].
  apply Hfiles; [reflexivity|]. repeat constructor.
Defined.

(* ===================================================================== *)
(** * The issues of a class list *)
(* ===================================================================== *)

Section Issues.

Context (designSystem : DesignSystem) (rootFontSize : Z).

Lemma collectIssues_issuesFrom (classNames : list string) (i : nat) (issues : list Issue) :
  collectIssues designSystem rootFontSize classNames i issues
  = Normal (issues ++ issuesFrom designSystem rootFontSize i classNames).
Proof.
  revert i issues. induction classNames as [|className rest IH]; intros i issues.
  - simpl. by rewrite app_nil_r.
  - simpl. unfold issueAt, tryCatchC.
    destruct (callCanonicalize designSystem [className] rootFontSize) as [candidates|e];
      simpl.
    + case_decide; simpl; rewrite IH; [done|]. by rewrite <- app_assoc.
    + by rewrite IH.
Qed.

Lemma elem_of_issuesFrom (classNames : list string) (i : nat) (issue : Issue) :
  issue ∈ issuesFrom designSystem rootFontSize i classNames ↔
  ∃ k className, classNames !! k = Some className ∧
                 issueAt designSystem rootFontSize (i + k) className = Some issue.
Proof.
  revert i. induction classNames as [|className rest IH]; intros i; simpl.
  - split; [by intros ?%elem_of_nil|]. by intros (k & c & ? & _).
  - rewrite elem_of_app, IH. split.
    + intros [Hhere|(k & c & Hk & Hissue)].
      * exists 0%nat, className. split; [done|]. rewrite Nat.add_0_r.
        destruct (issueAt designSystem rootFontSize i className); simpl in Hhere.
        -- apply list_elem_of_singleton in Hhere. by subst.
        -- by apply elem_of_nil in Hhere.
      * exists (S k), c. split; [done|]. by rewrite Nat.add_succ_r.
    + intros ([|k] & c & Hk & Hissue); simpl in Hk.
      * left. injection Hk as ->. rewrite Nat.add_0_r in Hissue. rewrite Hissue.
        simpl. apply list_elem_of_singleton. done.
      * right. exists k, c. split; [done|]. by rewrite Nat.add_succ_r in Hissue.
Qed.

Lemma issueAt_Some (i : nat) (className : string) (issue : Issue) :
  issueAt designSystem rootFontSize i className = Some issue ↔
  ∃ candidates,
    callCanonicalize designSystem [className] rootFontSize = Normal candidates ∧
    candidates !! 0%nat ≠ Some className ∧
    issue = {| original := className; canonical := candidates !! 0%nat; index := i |}.
Proof.
  unfold issueAt.
  destruct (callCanonicalize designSystem [className] rootFontSize) as [candidates|e].
  - case_decide as Hd.
    + split; [done|]. intros (c & [= <-] & Hne & _). done.
    + split.
      * intros [= <-]. by exists candidates.
      * intros (c & [= <-] & _ & ->). done.
  - split; [done|]. by intros (c & [=] & _).
Qed.

(** C6. The loop of [processClasses] ends normally whatever
    [canonicalizeCandidates] does, and each token is judged on its own: a
    token on which the call throws gets no issue, and a token on which it
    returns gets its issue exactly when the first candidate returned differs
    from it, whether or not the call throws on other tokens of the list. *)
Theorem throwing_token_is_skipped (classNames : list string) :
  ∃ issues,
    collectIssues designSystem rootFontSize classNames 0 [] = Normal issues ∧
    ∀ i className, classNames !! i = Some className →
      (∀ e, callCanonicalize designSystem [className] rootFontSize = Throw e →
            ∀ issue, issue ∈ issues → index issue ≠ i) ∧
      (∀ candidates,
         callCanonicalize designSystem [className] rootFontSize = Normal candidates →
         (candidates !! 0%nat ≠ Some className ↔
          {| original := className; canonical := candidates !! 0%nat; index := i |}
            ∈ issues) ∧
         (∀ issue, issue ∈ issues → index issue = i →
            issue = {| original := className; canonical := candidates !! 0%nat;
                       index := i |})).
Proof.
  exists (issuesFrom designSystem rootFontSize 0 classNames).
  split; [by rewrite collectIssues_issuesFrom|].
  intros i className Hi.
  assert (∀ issue, issue ∈ issuesFrom designSystem rootFontSize 0 classNames →
            index issue = i →
            issueAt designSystem rootFontSize i className = Some issue) as Hat.
  { intros issue (k & c & Hk & Hissue)%elem_of_issuesFrom Hidx. simpl in Hissue.
    pose proof Hissue as (cs & _ & _ & ->)%issueAt_Some. simpl in Hidx. subst k.
    by simplify_eq. }
  split.
  - intros e Hthrow issue Hin Hidx. specialize (Hat issue Hin Hidx).
    unfold issueAt in Hat. by rewrite Hthrow in Hat.
  - intros candidates Hcall. split; [split|].
    + intros Hne. apply elem_of_issuesFrom. exists i, className. split; [done|].
      apply issueAt_Some. by exists candidates.
    + intros Hin. specialize (Hat _ Hin eq_refl).
      apply issueAt_Some in Hat as (cs & Hcs & Hne & _). congruence.
    + intros issue Hin Hidx. specialize (Hat issue Hin Hidx).
      apply issueAt_Some in Hat as (cs & Hcs & _ & ->). congruence.
Qed.

End Issues.

Lemma throwing_token_is_skipped_witness :
  ∃ issues,
    collectIssues Sample.designSystem 16 ["p-4px"; "[boom"; "m-2rem"; "flex"] 0 []
      = Normal issues ∧
    (∀ issue, issue ∈ issues → index issue ≠ 1%nat) ∧
    {| original := "m-2rem"; canonical := Some "m-8"; index := 2 |} ∈ issues.
Proof.
  destruct (throwing_token_is_skipped Sample.designSystem 16
              ["p-4px"; "[boom"; "m-2rem"; "flex"]) as (issues & Hrun & Hspec).
  exists issues. split; [exact Hrun|]. split.
  - apply (Hspec 1%nat "[boom" eq_refl) with (Error "Invalid candidate"). reflexivity.
  - apply (Hspec 2%nat "m-2rem" eq_refl) with (candidates := ["m-8"]);
      [reflexivity|]. vm_compute. discriminate.
Defined.

(* ===================================================================== *)
(** * Splitting and joining class lists *)
(* ===================================================================== *)

Lemma append_empty_r (s : string) : s +:+ EmptyString = s.
Proof.
  induction s as [|c s IH]; [done|].
  change (String c (s +:+ EmptyString) = String c s). by rewrite IH.
Qed.

Lemma append_assoc (s1 s2 s3 : string) : (s1 +:+ s2) +:+ s3 = s1 +:+ (s2 +:+ s3).
Proof.
  induction s1 as [|c s1 IH]; [done|].
  change (String c ((s1 +:+ s2) +:+ s3) = String c (s1 +:+ (s2 +:+ s3))).
  by rewrite IH.
Qed.

(** Reading a run of characters that are not white space extends the
    current piece. *)
Lemma splitFrom_token (inRun : bool) (cur : string) (c : ascii) (tok rest : string) :
  noWhiteSpace (String c tok) = true →
  Js.splitFrom inRun cur (String c tok +:+ rest)
  = Js.splitFrom false (cur +:+ String c tok) rest.
Proof.
  revert inRun cur c. induction tok as [|d tok IH]; intros inRun cur c Hns.
  - simpl in *. apply andb_true_iff in Hns as [Hc _].
    apply negb_true_iff in Hc. by rewrite Hc.
  - unfold noWhiteSpace in Hns. simpl in Hns.
    apply andb_true_iff in Hns as [Hc Hns]. apply negb_true_iff in Hc.
    change (String c (String d tok) +:+ rest) with (String c (String d tok +:+ rest)).
    cbn [Js.splitFrom]. rewrite Hc. rewrite (IH false _ d Hns).
    by rewrite append_assoc.
Qed.

Lemma isToken_cons (s : string) :
  isToken s = true → ∃ c tok, s = String c tok ∧ noWhiteSpace (String c tok) = true.
Proof.
  unfold isToken. destruct s as [|c tok]; [done|]. simpl. eauto.
Qed.

Lemma splitFrom_join (inRun : bool) (tokens : list string) :
  tokens ≠ [] →
  Forall (λ t, isToken t = true) tokens →
  Js.splitFrom inRun EmptyString (Js.join " " tokens) = tokens.
Proof.
  intros Hne Hall. revert inRun.
  induction Hall as [|t rest Ht Hrest IH]; intros inRun; [done|].
  destruct (isToken_cons t Ht) as (c & tok & -> & Hns).
  destruct rest as [|t' rest'].
  - unfold Js.join. simpl String.concat.
    rewrite <- (append_empty_r (String c tok)) at 1.
    by rewrite splitFrom_token.
  - unfold Js.join in *.
    change (String.concat " " (String c tok :: t' :: rest'))
      with (String c tok +:+ " " +:+ String.concat " " (t' :: rest')).
    rewrite splitFrom_token by done.
    change (" " +:+ ?x) with (String " " x).
    cbn [Js.splitFrom]. change (Js.isWhiteSpace " ") with true. cbv iota.
    simpl. f_equal. by apply IH.
Qed.

Lemma trimEnd_noWhiteSpace (s : string) : noWhiteSpace s = true → Js.trimEnd s = s.
Proof.
  induction s as [|c s IH]; [done|]. unfold noWhiteSpace. simpl.
  intros [Hc Hs]%andb_true_iff. apply negb_true_iff in Hc.
  rewrite (IH Hs). rewrite Hc. by destruct s.
Qed.

Lemma trim_noWhiteSpace (s : string) : noWhiteSpace s = true → Js.trim s = s.
Proof.
  intros Hns. unfold Js.trim.
  assert (Js.trimStart s = s) as ->.
  { destruct s as [|c s]; [done|]. unfold noWhiteSpace in Hns. simpl in *.
    apply andb_true_iff in Hns as [Hc _]. apply negb_true_iff in Hc. by rewrite Hc. }
  by apply trimEnd_noWhiteSpace.
Qed.

Lemma filter_tokens (tokens : list string) :
  Forall (λ t, isToken t = true) tokens →
  List.filter (λ cls, Nat.ltb 0 (String.length (Js.trim cls))) tokens = tokens.
Proof.
  induction 1 as [|t rest Ht _ IH]; [done|]. simpl.
  destruct (isToken_cons t Ht) as (c & tok & -> & Hns).
  rewrite (trim_noWhiteSpace _ Hns). simpl. by rewrite IH.
Qed.

(** Joining tokens with a space and splitting again gives the tokens back. *)
Lemma splitClasses_join (tokens : list string) :
  Forall (λ t, isToken t = true) tokens →
  splitClasses (Js.join " " tokens) = tokens.
Proof.
  intros Hall. unfold splitClasses. destruct tokens as [|t rest]; [done|].
  unfold Js.split_ws. rewrite splitFrom_join by done. by apply filter_tokens.
Qed.

Lemma noWhiteSpace_snoc (s : string) (c : ascii) :
  noWhiteSpace s = true → Js.isWhiteSpace c = false →
  noWhiteSpace (s +:+ String c EmptyString) = true.
Proof.
  intros Hs Hc. induction s as [|d s IH]; unfold noWhiteSpace in *; simpl in *.
  - by rewrite Hc.
  - apply andb_true_iff in Hs as [Hd Hs]. rewrite Hd. simpl. by apply IH.
Qed.

Lemma splitFrom_noWhiteSpace (inRun : bool) (cur s : string) :
  noWhiteSpace cur = true →
  Forall (λ t, noWhiteSpace t = true) (Js.splitFrom inRun cur s).
Proof.
  revert inRun cur. induction s as [|c s IH]; intros inRun cur Hcur; simpl.
  - by constructor.
  - destruct (Js.isWhiteSpace c) eqn:Hc.
    + destruct inRun; [by apply IH|]. constructor; [done|]. by apply IH.
    + apply IH. by apply noWhiteSpace_snoc.
Qed.

(** What [extractClassNames] returns are tokens. *)
Lemma splitClasses_tokens (classString : string) :
  Forall (λ t, isToken t = true) (splitClasses classString).
Proof.
  unfold splitClasses, Js.split_ws.
  pose proof (splitFrom_noWhiteSpace false EmptyString classString eq_refl) as Hall.
  induction Hall as [|t rest Ht _ IH]; simpl; [by constructor|].
  destruct (Nat.ltb 0 (String.length (Js.trim t))) eqn:Hlen; [|done].
  constructor; [|done]. unfold isToken. rewrite Ht, andb_true_r.
  rewrite (trim_noWhiteSpace _ Ht) in Hlen. by destruct t.
Qed.

Lemma extractClassNames_tokens (classNameValue : Node) :
  Forall (λ t, isToken t = true) (extractClassNames classNameValue).
Proof.
  induction classNameValue as [[s|]|quasis expressions|expression IH|type]; simpl.
  - apply splitClasses_tokens.
  - constructor.
  - destruct (Nat.ltb 0 (length expressions)); [constructor|apply splitClasses_tokens].
  - done.
  - constructor.
Qed.

(* ===================================================================== *)
(** * The canonical map and the rewritten class list *)
(* ===================================================================== *)

Lemma foldl_insert_lookup_Some (issues : list Issue) (m : gmap string (option string))
    (c : string) (v : option string) :
  foldl (λ canonicalMap issue, <[original issue := canonical issue]> canonicalMap)
    m issues !! c = Some v →
  m !! c = Some v ∨
  ∃ issue, issue ∈ issues ∧ original issue = c ∧ canonical issue = v.
Proof.
  revert m. induction issues as [|issue rest IH]; intros m; simpl; [by left|].
  intros [Hm|(issue' & Hin & Ho & Hc)]%IH.
  - apply lookup_insert_Some in Hm as [[<- <-]|[_ Hm]]; [|by left].
    right. exists issue. split; [apply list_elem_of_here|done].
  - right. exists issue'. split; [by apply list_elem_of_further|done].
Qed.

Lemma foldl_insert_lookup_is_Some (issues : list Issue) (m : gmap string (option string))
    (c : string) :
  is_Some (m !! c) ∨ (∃ issue, issue ∈ issues ∧ original issue = c) →
  is_Some (foldl (λ canonicalMap issue, <[original issue := canonical issue]> canonicalMap)
             m issues !! c).
Proof.
  revert m. induction issues as [|issue rest IH]; intros m; simpl.
  - intros [Hm|(issue & Hin%elem_of_nil & _)]; done.
  - intros [Hm|(issue' & Hin & Ho)]; apply IH.
    + left. destruct (decide (original issue = c)) as [->|Hne].
      * rewrite lookup_insert_eq. by eexists.
      * by rewrite lookup_insert_ne.
    + apply elem_of_cons in Hin as [->|Hin].
      * left. rewrite Ho, lookup_insert_eq. by eexists.
      * right. by exists issue'.
Qed.

(** What the map holds for a key is the canonical form of an issue with
    that original token. *)
Lemma buildCanonicalMap_lookup_Some (issues : list Issue) (c : string)
    (v : option string) :
  buildCanonicalMap issues !! c = Some v →
  ∃ issue, issue ∈ issues ∧ original issue = c ∧ canonical issue = v.
Proof.
  intros [Hm|Hissue]%foldl_insert_lookup_Some; [|done].
  by rewrite lookup_empty in Hm.
Qed.

(** Every issue of the loop comes from a call that returned, on its own
    original token. *)
Lemma issuesFrom_elem (designSystem : DesignSystem) (rootFontSize : Z) (i : nat)
    (classNames : list string) (issue : Issue) :
  issue ∈ issuesFrom designSystem rootFontSize i classNames →
  ∃ k candidates,
    index issue = (i + k)%nat ∧
    classNames !! k = Some (original issue) ∧
    callCanonicalize designSystem [original issue] rootFontSize = Normal candidates ∧
    canonical issue = candidates !! 0%nat ∧
    candidates !! 0%nat ≠ Some (original issue).
Proof.
  intros (k & c & Hk & (candidates & Hcall & Hne & ->)%issueAt_Some)%elem_of_issuesFrom.
  exists k, candidates. done.
Qed.

Lemma buildCanonicalMap_issuesFrom (designSystem : DesignSystem) (rootFontSize : Z)
    (classNames : list string) (issue : Issue) :
  issue ∈ issuesFrom designSystem rootFontSize 0 classNames →
  buildCanonicalMap (issuesFrom designSystem rootFontSize 0 classNames)
    !! original issue = Some (canonical issue).
Proof.
  intros Hin.
  destruct (foldl_insert_lookup_is_Some
              (issuesFrom designSystem rootFontSize 0 classNames) ∅ (original issue))
    as [v Hv]; [right; by exists issue|].
  fold (buildCanonicalMap (issuesFrom designSystem rootFontSize 0 classNames)) in Hv.
  rewrite Hv. f_equal.
  apply buildCanonicalMap_lookup_Some in Hv as (issue' & Hin' & Ho & <-).
  apply issuesFrom_elem in Hin as (_ & cs & _ & _ & Hcall & -> & _).
  apply issuesFrom_elem in Hin' as (_ & cs' & _ & _ & Hcall' & -> & _).
  rewrite Ho in Hcall'. congruence.
Qed.

Lemma fixedClassNames_lookup (issues : list Issue) (classNames : list string) (i : nat) :
  fixedClassNames issues classNames !! i
  = fixClassName (buildCanonicalMap issues) <$> classNames !! i.
Proof. unfold fixedClassNames. apply list_lookup_fmap. Qed.

(** C2. The rewritten class list is the extracted one, token by token: as
    many tokens, and at every index either the token that was there or the
    first candidate that [canonicalizeCandidates] returned for it. When the
    candidates returned have no white space in them, splitting the rewritten
    string at white space gives that list back: nothing is dropped,
    duplicated or reordered. *)
Theorem rewrite_preserves_tokens (designSystem : DesignSystem) (rootFontSize : Z)
    (classNameValue : Node) :
  ∃ issues,
    collectIssues designSystem rootFontSize (extractClassNames classNameValue) 0 []
      = Normal issues ∧
    length (fixedClassNames issues (extractClassNames classNameValue))
      = length (extractClassNames classNameValue) ∧
    (∀ i className,
       extractClassNames classNameValue !! i = Some className →
       fixedClassNames issues (extractClassNames classNameValue) !! i = Some className ∨
       ∃ candidates replacement,
         callCanonicalize designSystem [className] rootFontSize = Normal candidates ∧
         candidates !! 0%nat = Some replacement ∧
         replacement ≠ className ∧
         fixedClassNames issues (extractClassNames classNameValue) !! i
           = Some replacement) ∧
    ((∀ className candidates replacement,
        className ∈ extractClassNames classNameValue →
        callCanonicalize designSystem [className] rootFontSize = Normal candidates →
        candidates !! 0%nat = Some replacement →
        noWhiteSpace replacement = true) →
     splitClasses (Js.join " " (fixedClassNames issues (extractClassNames classNameValue)))
       = fixedClassNames issues (extractClassNames classNameValue)).
Proof.
  set (classNames := extractClassNames classNameValue).
  exists (issuesFrom designSystem rootFontSize 0 classNames).
  split; [by rewrite collectIssues_issuesFrom|].
  set (issues := issuesFrom designSystem rootFontSize 0 classNames).
  assert (∀ className,
            fixClassName (buildCanonicalMap issues) className = className ∨
            ∃ candidates replacement,
              callCanonicalize designSystem [className] rootFontSize = Normal candidates ∧
              candidates !! 0%nat = Some replacement ∧
              replacement ≠ className ∧ Js.truthy replacement = true ∧
              fixClassName (buildCanonicalMap issues) className = replacement) as Hfix.
  { intros className. unfold fixClassName.
    destruct (buildCanonicalMap issues !! className) as [[replacement|]|] eqn:Hm;
      [|by left..].
    destruct (Js.truthy replacement) eqn:Htruthy; [|by left].
    right. apply buildCanonicalMap_lookup_Some in Hm as (issue & Hin & <- & Hcanon).
    apply issuesFrom_elem in Hin as (_ & cs & _ & _ & Hcall & Hc & Hne).
    exists cs, replacement. repeat split; [done|congruence|congruence|done]. }
  split; [|split].
  - unfold fixedClassNames. by rewrite length_map.
  - intros i className Hi. rewrite fixedClassNames_lookup, Hi. simpl.
    destruct (Hfix className) as [->|(cs & r & Hcall & Hr & Hne & _ & ->)]; [by left|].
    right. by exists cs, r.
  - intros Hclean. apply splitClasses_join.
    unfold fixedClassNames. apply Forall_fmap, Forall_forall.
    intros className Hin. simpl.
    destruct (Hfix className) as [->|(cs & r & Hcall & Hr & _ & Htruthy & ->)].
    + pose proof (extractClassNames_tokens classNameValue) as Htok.
      by apply (proj1 (Forall_forall _ _) Htok).
    + unfold isToken. rewrite Htruthy. simpl. by apply (Hclean className cs r).
Qed.

(* ===================================================================== *)
(** * The reports of processClasses *)
(* ===================================================================== *)

Lemma appendReports_nil (w : World) : appendReports w [] = w.
Proof. destruct w. unfold appendReports. simpl. by rewrite app_nil_r. Qed.

Lemma reportAll_run (rs : list Report) (w : World) :
  reportAll rs w = (Normal (), appendReports w rs).
Proof.
  revert w. induction rs as [|r rest IH]; intros w; simpl.
  - by rewrite appendReports_nil.
  - unfold mbind, M_bind, report. rewrite IH. unfold appendReports. simpl.
    by rewrite <- app_assoc.
Qed.

(** The report of an issue, with the fix the first one carries. *)
Lemma processClasses_run (designSystem : DesignSystem) (classNames : list string)
    (classNameValue : Node) (sourceCode : SourceCode) (rootFontSize : Z) (w : World) :
  let issues := issuesFrom designSystem rootFontSize 0 classNames in
  let originalText := getText sourceCode classNameValue in
  let fixedText :=
    fixedTextOf classNameValue originalText
      (Js.join " " (fixedClassNames issues classNames)) in
  processClasses designSystem classNames classNameValue sourceCode rootFontSize w
  = (Normal (),
     appendReports w
       (imap (λ k issue,
                {| target := AtNode classNameValue; messageId := nonCanonical;
                   data := issueData issue;
                   fix_ := match k with
                           | O => Some (if decide (fixedText = originalText) then None
                                        else Some (replaceText classNameValue fixedText))
                           | S _ => None
                           end |}) issues)).
Proof.
  intros issues originalText fixedText. unfold processClasses.
  unfold mbind at 1, M_bind, liftC. rewrite collectIssues_issuesFrom. simpl.
  fold issues. destruct issues as [|first others] eqn:Hissues.
  - simpl. by rewrite appendReports_nil.
  - unfold mbind, M_bind, report. rewrite reportAll_run.
    unfold appendReports. simpl. rewrite <- app_assoc. simpl.
    repeat f_equal. clear. generalize 0%nat. 
    induction others as [|issue rest IH]; intros n; simpl; [done|].
    f_equal. apply (IH (S n)).
Qed.

Lemma issuesFrom_index_ge (designSystem : DesignSystem) (rootFontSize : Z) (i : nat)
    (classNames : list string) (issue : Issue) :
  issue ∈ issuesFrom designSystem rootFontSize i classNames → i ≤ index issue.
Proof. intros (k & cs & -> & _)%issuesFrom_elem. lia. Qed.

(** The issues are in token order. *)
Lemma issuesFrom_ordered (designSystem : DesignSystem) (rootFontSize : Z) (i : nat)
    (classNames : list string) (j k : nat) (a b : Issue) :
  issuesFrom designSystem rootFontSize i classNames !! j = Some a →
  issuesFrom designSystem rootFontSize i classNames !! k = Some b →
  j < k → index a < index b.
Proof.
  revert i j k. induction classNames as [|className rest IH]; intros i j k; [done|].
  simpl. destruct (issueAt designSystem rootFontSize i className) as [x|] eqn:Hx; simpl.
  - destruct j as [|j]; destruct k as [|k]; simpl; try lia.
    + intros [= <-] Hb _. apply issueAt_Some in Hx as (cs & _ & _ & ->). simpl.
      apply list_elem_of_lookup_2, issuesFrom_index_ge in Hb. lia.
    + intros Ha Hb Hlt. apply (IH (S i) j k); [done..|lia].
  - apply IH.
Qed.

Lemma matchQuoted_Some (text : string) (quote : ascii) :
  Js.matchQuoted text = Some quote →
  Js.matchStartQuote text = Some quote ∧ Js.isQuote quote = true.
Proof.
  unfold Js.matchQuoted, Js.matchStartQuote. destruct text as [|q rest]; [done|].
  destruct (Js.isQuote q) eqn:Hq; [|done].
  destruct (Js.lastChar rest) as [q'|]; [|done].
  destruct (Ascii.eqb q' q && _); [|done]. by intros [= <-].
Qed.

Lemma matchStartQuote_Some (text : string) (quote : ascii) :
  Js.matchStartQuote text = Some quote → Js.isQuote quote = true.
Proof.
  unfold Js.matchStartQuote. destruct text as [|q rest]; [done|].
  destruct (Js.isQuote q) eqn:Hq; [|done]. by intros [= <-].
Qed.

(** The text of the fix is the joined class string itself: bare, for a value
    that is not a template literal, or between two copies of one quote
    character, the one the original text opens with or, for a template
    literal, possibly the backtick. *)
Lemma fixedTextOf_shape (classNameValue : Node) (originalText fixedClassString : string) :
  (fixedTextOf classNameValue originalText fixedClassString = fixedClassString ∧
   isTemplateLiteral classNameValue = false) ∨
  ∃ quote,
    Js.isQuote quote = true ∧
    fixedTextOf classNameValue originalText fixedClassString
      = quoted quote fixedClassString ∧
    (Js.matchStartQuote originalText = Some quote ∨
     (isTemplateLiteral classNameValue = true ∧ quote = Js.backtick)).
Proof.
  unfold fixedTextOf.
  destruct (Js.matchQuoted originalText) as [quote|] eqn:Hmatch.
  { apply matchQuoted_Some in Hmatch as [Hstart Hq].
    right. exists quote. split; [done|]. split; [done|]. by left. }
  destruct (isTemplateLiteral classNameValue) eqn:Htemplate.
  { right. exists Js.backtick. split; [done|]. split; [done|]. by right. }
  destruct (Js.matchStartQuote originalText) as [quote|] eqn:Hstart; [|by left].
  destruct (Js.lastIndexOfPositive quote originalText); [|by left].
  right. exists quote. split; [by apply (matchStartQuote_Some originalText)|].
  split; [done|]. by left.
Qed.

(** C10. With [n >= 1] issues, [processClasses] reports [n] problems on the
    attribute value, one per issue and in the order of the issues, which is
    the order of the tokens. The first one, and no other, carries a fix: it
    replaces the text of the whole value by [fixedText], or does nothing
    ([null]) when [fixedText] is the original text. [fixedText] is the
    rewritten class list joined by single spaces, bare or between two copies
    of one quote character, and in that class list the token of every issue
    stands replaced by its canonical form (a non-empty string). *)
Theorem one_report_per_issue (designSystem : DesignSystem) (classNames : list string)
    (classNameValue : Node) (sourceCode : SourceCode) (rootFontSize : Z) (w : World)
    (issues : list Issue) :
  collectIssues designSystem rootFontSize classNames 0 [] = Normal issues →
  issues ≠ [] →
  let originalText := getText sourceCode classNameValue in
  let fixedClassString := Js.join " " (fixedClassNames issues classNames) in
  let fixedText := fixedTextOf classNameValue originalText fixedClassString in
  ∃ reports,
    processClasses designSystem classNames classNameValue sourceCode rootFontSize w
      = (Normal (), appendReports w reports) ∧
    length reports = length issues ∧
    (∀ k issue, issues !! k = Some issue →
       ∃ r, reports !! k = Some r ∧
            target r = AtNode classNameValue ∧ messageId r = nonCanonical ∧
            data r = NonCanonicalData (original issue) (canonical issue) ∧
            fix_ r = match k with
                     | O => Some (if decide (fixedText = originalText) then None
                                  else Some (replaceText classNameValue fixedText))
                     | S _ => None
                     end) ∧
    (∀ j k a b, issues !! j = Some a → issues !! k = Some b → j < k →
                index a < index b) ∧
    (∀ issue, issue ∈ issues →
       classNames !! index issue = Some (original issue) ∧
       canonical issue ≠ Some (original issue) ∧
       ∀ replacement, canonical issue = Some replacement →
                      Js.truthy replacement = true →
                      fixedClassNames issues classNames !! index issue
                        = Some replacement) ∧
    ((fixedText = fixedClassString ∧ isTemplateLiteral classNameValue = false) ∨
     ∃ quote,
       Js.isQuote quote = true ∧
       fixedText = quoted quote fixedClassString ∧
       (Js.matchStartQuote originalText = Some quote ∨
        (isTemplateLiteral classNameValue = true ∧ quote = Js.backtick))).
Proof.
  rewrite collectIssues_issuesFrom.
  intros [= <-] Hne originalText fixedClassString fixedText.
  eexists. split; [apply processClasses_run|].
  split; [|split; [|split; [|split; [|apply fixedTextOf_shape]]]].
  - by rewrite length_imap.
  - intros k issue Hk. eexists. split.
    + rewrite list_lookup_imap, Hk. reflexivity.
    + done.
  - intros j k a b. apply issuesFrom_ordered.
  - intros issue Hin. pose proof (buildCanonicalMap_issuesFrom _ _ _ _ Hin) as Hmap.
    apply issuesFrom_elem in Hin as (k & cs & Hidx & Hk & _ & Hcanon & Hdiff).
    simpl in Hidx. subst k. split; [done|]. split; [congruence|].
    intros replacement Hr Htruthy.
    rewrite fixedClassNames_lookup, Hk. simpl. f_equal.
    unfold fixClassName. by rewrite Hmap, Hr, Htruthy.
Qed.

(* ===================================================================== *)
(** * The quotes of the fix *)
(* ===================================================================== *)

Lemma lastChar_snoc (s : string) (c : ascii) :
  Js.lastChar (s +:+ String c EmptyString) = Some c.
Proof.
  induction s as [|d s IH]; [done|].
  change (String d s +:+ String c EmptyString)
    with (String d (s +:+ String c EmptyString)).
  cbn [Js.lastChar]. rewrite IH. by destruct s.
Qed.

Lemma anyChar_snoc (s : string) (c : ascii) :
  Js.anyChar (Ascii.eqb c) (s +:+ String c EmptyString) = true.
Proof.
  induction s as [|d s IH].
  - simpl. by rewrite Ascii.eqb_refl.
  - change (String d s +:+ String c EmptyString)
      with (String d (s +:+ String c EmptyString)).
    cbn [Js.anyChar]. rewrite IH. apply orb_true_r.
Qed.

(** A text that opens and closes with a quote is rewritten between the
    same quotes, through whichever branch of [processClasses]. *)
Lemma fixedTextOf_quoted (classNameValue : Node) (quote : ascii)
    (body fixedClassString : string) :
  Js.isQuote quote = true →
  (isTemplateLiteral classNameValue = true → quote = Js.backtick) →
  fixedTextOf classNameValue (quoted quote body) fixedClassString
  = quoted quote fixedClassString.
Proof.
  intros Hq Htemplate. unfold fixedTextOf, Js.matchQuoted, quoted at 1.
  rewrite Hq, lastChar_snoc, Ascii.eqb_refl. cbn [andb].
  destruct (Js.allChars _ _); [done|].
  destruct (isTemplateLiteral classNameValue); [by rewrite Htemplate|].
  unfold Js.matchStartQuote, Js.lastIndexOfPositive, quoted at 1 2.
  by rewrite Hq, anyChar_snoc.
Qed.

(** C3. When the source text of the attribute value opens and closes with a
    quote character, every fix that [processClasses] emits replaces that
    value by a text that opens and closes with the same quote character.
    (A template literal's source text is delimited by backticks.) *)
Theorem fix_keeps_quote (designSystem : DesignSystem) (classNames : list string)
    (classNameValue : Node) (sourceCode : SourceCode) (rootFontSize : Z) (w : World)
    (quote : ascii) (body : string) :
  Js.isQuote quote = true →
  getText sourceCode classNameValue = quoted quote body →
  (isTemplateLiteral classNameValue = true → quote = Js.backtick) →
  ∃ reports,
    processClasses designSystem classNames classNameValue sourceCode rootFontSize w
      = (Normal (), appendReports w reports) ∧
    ∀ r node text,
      r ∈ reports → fix_ r = Some (Some (replaceText node text)) →
      node = classNameValue ∧
      ∃ fixedClassString, text = quoted quote fixedClassString.
Proof.
  intros Hq Htext Htemplate.
  eexists. split; [apply processClasses_run|].
  intros r node text (k & issue & -> & Hk)%elem_of_lookup_imap Hfix.
  destruct k as [|k]; [|done]. simpl in Hfix.
  case_decide; [done|]. injection Hfix as <- <-. split; [done|].
  rewrite Htext, (fixedTextOf_quoted _ _ _ _ Hq Htemplate). by eexists.
Qed.

Lemma rewrite_preserves_tokens_witness :
  ∃ issues,
    collectIssues Sample.designSystem 16 (extractClassNames Sample.mixedClasses) 0 []
      = Normal issues ∧
    (fixedClassNames issues (extractClassNames Sample.mixedClasses) !! 2%nat
       = Some "m-2rem" ∨
     ∃ candidates replacement,
       callCanonicalize Sample.designSystem ["m-2rem"] 16 = Normal candidates ∧
       candidates !! 0%nat = Some replacement ∧
       replacement ≠ "m-2rem" ∧
       fixedClassNames issues (extractClassNames Sample.mixedClasses) !! 2%nat
         = Some replacement) ∧
    splitClasses (Js.join " " (fixedClassNames issues (extractClassNames Sample.mixedClasses)))
      = fixedClassNames issues (extractClassNames Sample.mixedClasses).
Proof.
  destruct (rewrite_preserves_tokens Sample.designSystem 16 Sample.mixedClasses)
    as (issues & Hrun & _ & Heach & Hsplit).
  exists issues. split; [exact Hrun|]. split.
  - apply Heach. reflexivity.
  - apply Hsplit. intros className candidates replacement Hin.
    vm_compute in Hin.
    repeat (apply elem_of_cons in Hin as [->|Hin]);
      [vm_compute; intros [= <-] [= <-]; reflexivity..|].
    by apply elem_of_nil in Hin.
Defined.

Lemma one_report_per_issue_witness :
  ∃ reports,
    processClasses Sample.designSystem (extractClassNames Sample.twoLines)
      Sample.twoLines Sample.sourceCode 16 initialWorld
      = (Normal (), appendReports initialWorld reports) ∧
    length reports = 2%nat ∧
    (∃ r, reports !! 0%nat = Some r ∧
          data r = NonCanonicalData "p-4px" (Some "p-1") ∧
          fix_ r = Some (Some (replaceText Sample.twoLines "`p-1 [boom m-8 flex`"))) ∧
    (∃ r, reports !! 1%nat = Some r ∧
          data r = NonCanonicalData "m-2rem" (Some "m-8") ∧ fix_ r = None) ∧
    fixedClassNames
      [{| original := "p-4px"; canonical := Some "p-1"; index := 0 |};
       {| original := "m-2rem"; canonical := Some "m-8"; index := 2 |}]
      (extractClassNames Sample.twoLines) !! 2%nat = Some "m-8".
Proof.
  destruct (one_report_per_issue Sample.designSystem (extractClassNames Sample.twoLines)
              Sample.twoLines Sample.sourceCode 16 initialWorld
              [{| original := "p-4px"; canonical := Some "p-1"; index := 0 |};
               {| original := "m-2rem"; canonical := Some "m-8"; index := 2 |}])
    as (reports & Hrun & Hlen & Hreports & _ & Hfixed & _).
  - reflexivity.
  - discriminate.
  - exists reports. split; [exact Hrun|]. split; [exact Hlen|]. split; [|split].
    + destruct (Hreports 0%nat _ eq_refl) as (r & Hr & _ & _ & Hdata & Hfix).
      exists r. split; [exact Hr|]. split; [exact Hdata | exact Hfix].
    + destruct (Hreports 1%nat _ eq_refl) as (r & Hr & _ & _ & Hdata & Hfix).
      exists r. split; [exact Hr|]. split; [exact Hdata | exact Hfix].
    + apply (Hfixed {| original := "m-2rem"; canonical := Some "m-8"; index := 2 |});
        [|reflexivity|reflexivity].
      apply list_elem_of_further, list_elem_of_here.
Defined.

Lemma fix_keeps_quote_witness :
  ∃ reports,
    processClasses Sample.designSystem (extractClassNames Sample.twoLines)
      Sample.twoLines Sample.sourceCode 16 initialWorld
      = (Normal (), appendReports initialWorld reports) ∧
    ∀ r node text,
      r ∈ reports → fix_ r = Some (Some (replaceText node text)) →
      node = Sample.twoLines ∧
      ∃ fixedClassString, text = quoted Js.backtick fixedClassString.
Proof.
  apply (fix_keeps_quote Sample.designSystem (extractClassNames Sample.twoLines)
           Sample.twoLines Sample.sourceCode 16 initialWorld Js.backtick
           ("p-4px [boom" +:+ String (ascii_of_nat 10) "  m-2rem flex")).
  - reflexivity.
  - reflexivity.
  - intros _. reflexivity.
Defined.

(* ===================================================================== *)
(** * Runs with one stylesheet *)
(* ===================================================================== *)

(** The three ways the [try] block ends: it throws and leaves the world as it
    was, it records that the file was not found, or it starts a load. *)
Lemma loadAttempt_cases (h : Host) (cssPath : string) (context : Context) (w : World) :
  (∃ e, loadAttempt h cssPath context w = (Throw e, w)) ∨
  loadAttempt h cssPath context w
    = (Normal None, withVars w (setError (notFoundError cssPath) (vars w))) ∨
  loadAttempt h cssPath context w = (Normal None, withLoad w).
Proof.
  unfold loadAttempt. unfold_monad.
  destruct (resolveCssPath h cssPath context) as [[resolved|]|e];
    [|by right; left|by left; eexists].
  destruct (negb (Js.truthy resolved)); [by right; left|].
  destruct (fs_existsSync h resolved) as [[|]|e];
    [|by right; left|by left; eexists].
  destruct (fs_readFileSync h resolved) as [content|e]; [|by left; eexists].
  destruct (path_dirname h resolved) as [base|e]; [|by left; eexists].
  unfold callLoad.
  destruct (loadDesignSystem h content base) as [[]|e]; [|by left; eexists].
  by right; right.
Qed.

Lemma oneLoad_afterReset (cssPath : string) (w : World) :
  oneLoad cssPath w →
  oneLoad cssPath (afterReset cssPath w) ∧
  cssPathCache (vars (afterReset cssPath w)) = Some cssPath ∧
  (is_Some (designSystemError (vars w)) → afterReset cssPath w = w).
Proof.
  intros (Hpath & Herr & Hpend). unfold afterReset, resetIfPathChanged.
  case_decide as Hd; simpl; [done|].
  destruct Hpath as [?|(Hnone & (Hc & He & Hp) & Hnil)]; [done|].
  split; [|split; [done|]].
  - split; [by left|]. split; [by intros [? [=]]|]. by left.
  - rewrite He. by intros [? [=]].
Qed.

Lemma oneLoad_sync (h : Host) (cssPath : string) (context : Context) (w : World) :
  oneLoad cssPath w →
  oneLoad cssPath (getDesignSystemSync h cssPath context w).2 ∧
  cssPathCache (vars (getDesignSystemSync h cssPath context w).2) = Some cssPath.
Proof.
  intros Hinv. rewrite getDesignSystemSync_afterReset.
  destruct (oneLoad_afterReset _ _ Hinv) as (Hinv0 & Hpath0 & _).
  rewrite (getDesignSystemSync_current _ _ _ _ Hpath0).
  set (w0 := afterReset cssPath w) in *.
  destruct (designSystemCache (vars w0)) eqn:Hc; [done|].
  destruct (designSystemError (vars w0)) eqn:He; [done|].
  destruct (designSystemPromise (vars w0)) eqn:Hp; [done|].
  destruct Hinv0 as (_ & _ & [Hnil|(p & _ & Hp' & _)]); [|congruence].
  destruct (loadAttempt_cases h cssPath context w0) as [[e ->]|[->| ->]]; simpl.
  - split; [|done]. split; [by left|]. split; [done|]. by left.
  - split; [|done]. split; [by left|]. split; [done|]. by left.
  - split; [|done]. unfold oneLoad, withLoad. simpl.
    split; [by left|]. split; [by rewrite He; intros [? [=]]|].
    right. exists (nextPromise w0). by rewrite Hnil.
Qed.

Lemma oneLoad_async (h : Host) (cssPath : string) (context : Context) (w : World) :
  oneLoad cssPath w →
  oneLoad cssPath (getDesignSystemAsync h cssPath context w).2.
Proof.
  intros Hinv. unfold getDesignSystemAsync.
  unfold mbind at 1, M_bind.
  assert (resetIfPathChanged cssPath w = (Normal (), afterReset cssPath w)) as ->.
  { unfold afterReset, resetIfPathChanged. by case_decide. }
  destruct (oneLoad_afterReset _ _ Hinv) as (Hinv0 & _ & _).
  set (w0 := afterReset cssPath w) in *. unfold_monad.
  destruct (designSystemCache (vars w0)); [done|].
  destruct (designSystemError (vars w0)); [done|].
  destruct (designSystemPromise (vars w0)); [done|].
  pose proof (oneLoad_sync h cssPath context w0 Hinv0) as [Hsync _].
  by destruct (getDesignSystemSync h cssPath context w0) as [[r|e] w1].
Qed.

Lemma oneLoad_appendReports (cssPath : string) (w : World) (rs : list Report) :
  oneLoad cssPath w → oneLoad cssPath (appendReports w rs).
Proof. done. Qed.

Lemma oneLoad_visitor (h : Host) (context : Context) (cssPath : string)
    (rootFontSize : Z) (sourceCode : SourceCode) (node : JSXAttribute) (w : World) :
  oneLoad cssPath w →
  oneLoad cssPath
    (JSXAttributeVisitor h context cssPath rootFontSize sourceCode node w).2.
Proof.
  intros Hinv. unfold JSXAttributeVisitor.
  destruct (negb (String.eqb (attr_name node) "className")); [done|].
  destruct (attr_value node) as [value|]; [|done].
  match goal with |- context [hasCheckedType ?n] => destruct (negb (hasCheckedType n)) end;
    [done|].
  match goal with |- context [Nat.eqb ?n 0] => destruct (Nat.eqb n 0) end; [done|].
  unfold mbind, M_bind.
  pose proof (oneLoad_sync h cssPath context w Hinv) as [Hsync _].
  destruct (getDesignSystemSync h cssPath context w) as [[[ds|]|e] w1]; simpl in *;
    [| |done].
  - destruct (canonicalizeCandidates ds); [|done].
    rewrite processClasses_run. by apply oneLoad_appendReports.
  - by apply oneLoad_async.
Qed.

Lemma oneLoad_visitAll (cssPath : string) (visit : JSXAttribute → M unit)
    (nodes : list JSXAttribute) (w : World) :
  (∀ node w, oneLoad cssPath w → oneLoad cssPath (visit node w).2) →
  oneLoad cssPath w → oneLoad cssPath (visitAll visit nodes w).2.
Proof.
  intros Hvisit. revert w. induction nodes as [|node rest IH]; intros w Hinv; [done|].
  simpl. unfold mbind, M_bind. specialize (Hvisit node w Hinv).
  destruct (visit node w) as [[[]|e] w1]; simpl in *; [by apply IH|done].
Qed.

Lemma oneLoad_lintFile (h : Host) (context : Context) (cssPath : string)
    (nodes : list JSXAttribute) (w : World) :
  configuredCssPath context = Some cssPath →
  oneLoad cssPath w → oneLoad cssPath (lintFile h context nodes w).2.
Proof.
  intros Hcfg Hinv. unfold lintFile, create, configuredCssPath in *.
  destruct (options context) as [o|]; simpl in Hcfg; [|done].
  simpl. rewrite Hcfg. destruct (negb (Js.truthy cssPath)); [done|]. simpl.
  apply oneLoad_visitAll; [|done]. intros node w'. apply oneLoad_visitor.
Qed.

Lemma isPending_oneLoad (cssPath : string) (p : Promise) (w : World) :
  oneLoad cssPath w → isPending p w = true →
  cssPathCache (vars w) = Some cssPath ∧ pending (settle p w) = [] ∧
  designSystemCache (vars w) = None ∧ designSystemError (vars w) = None.
Proof.
  intros (Hpath & _ & Hpend) Hp. unfold isPending in Hp.
  destruct Hpend as [Hnil|(q & Hq & _ & Hc & He)]; [by rewrite Hnil in Hp|].
  rewrite Hq in Hp. simpl in Hp. rewrite orb_false_r in Hp.
  split; [|split; [|done]].
  - destruct Hpath as [?|(_ & _ & Hnil)]; [done|congruence].
  - simpl. rewrite Hq. simpl. by rewrite Hp.
Qed.

Lemma oneLoad_step (h : Host) (cssPath : string) (ev : Event) (w : World) :
  usesStylesheet cssPath ev →
  oneLoad cssPath w → oneLoad cssPath (stepEvent h ev w).
Proof.
  intros Hev Hinv. destruct ev as [context nodes|p ds|p e]; simpl.
  - by apply oneLoad_lintFile.
  - destruct (isPending p w) eqn:Hp; [|done].
    destruct (isPending_oneLoad _ _ _ Hinv Hp) as (Hpath & Hnil & Hc & He).
    split; [by left|]. split; [simpl; rewrite He; by intros [? [=]]|]. by left.
  - destruct (isPending p w) eqn:Hp; [|done].
    destruct (isPending_oneLoad _ _ _ Hinv Hp) as (Hpath & Hnil & Hc & He).
    split; [by left|]. split; [done|]. by left.
Qed.

Lemma oneLoad_run (h : Host) (cssPath : string) (evs : list Event) (w : World) :
  Forall (usesStylesheet cssPath) evs →
  oneLoad cssPath w → oneLoad cssPath (runEvents h evs w).
Proof.
  intros Hevs. revert w. induction Hevs as [|ev rest Hev _ IH]; intros w Hinv; [done|].
  simpl. apply IH. by apply oneLoad_step.
Qed.

Lemma oneLoad_initial (cssPath : string) : oneLoad cssPath initialWorld.
Proof. split; [by right|]. split; [by intros [? [=]]|by left]. Qed.

(** In a run from the loaded module in which every file is configured with
    the same stylesheet, a stored error is a cached failure, no load is in
    flight any more, and whatever happens next (files linted, promises
    settling) leaves the world as it is. *)
Theorem failure_is_absorbing (h : Host) (cssPath : string) (before after : list Event) :
  Js.truthy cssPath = true →
  Forall (usesStylesheet cssPath) (before ++ after) →
  is_Some (designSystemError (vars (runEvents h before initialWorld))) →
  failureCached cssPath (runEvents h before initialWorld) ∧
  runEvents h after (runEvents h before initialWorld) = runEvents h before initialWorld.
Proof.
  intros Htruthy [Hbefore Hafter]%Forall_app Herr.
  pose proof (oneLoad_run h cssPath before initialWorld Hbefore (oneLoad_initial _))
    as Hinv.
  set (w := runEvents h before initialWorld) in *.
  assert (failureCached cssPath w ∧ pending w = []) as [Hfailed Hnil].
  { destruct Hinv as (Hpath & Hcache & Hpend). split; [split; [|split]|].
    - destruct Hpath as [?|(_ & (_ & He & _) & _)]; [done|].
      rewrite He in Herr. by destruct Herr.
    - done.
    - by apply Hcache.
    - destruct Hpend as [?|(p & _ & _ & _ & He)]; [done|].
      rewrite He in Herr. by destruct Herr. }
  split; [done|].
  induction Hafter as [|ev rest Hev _ IH]; [done|].
  simpl. assert (stepEvent h ev w = w) as ->; [|done].
  destruct ev as [context nodes|p ds|p e]; simpl.
  - by rewrite (lintFile_failed _ _ _ _ _ Hfailed Hev Htruthy).
  - unfold isPending. by rewrite Hnil.
  - unfold isPending. by rewrite Hnil.
Qed.

(* ===================================================================== *)
(** * More on extractClassNames: white space, trimming, round trips *)
(* ===================================================================== *)

Lemma splitClasses_unfold (classString : string) :
  splitClasses classString
  = List.filter keptByFilter (Js.splitFrom false EmptyString classString).
Proof. done. Qed.

(** After a white-space character the piece read so far is emitted and a
    run begins; inside a run the piece is empty. *)
Lemma filter_splitFrom_ws (inRun : bool) (cur : string) (c : ascii) (s : string) :
  Js.isWhiteSpace c = true →
  (inRun = true → cur = EmptyString) →
  List.filter keptByFilter (Js.splitFrom inRun cur (String c s))
  = List.filter keptByFilter [cur]
      ++ List.filter keptByFilter (Js.splitFrom true EmptyString s).
Proof.
  intros Hc Hrun. cbn [Js.splitFrom]. rewrite Hc. destruct inRun.
  - by rewrite (Hrun eq_refl).
  - cbn [List.filter]. by destruct (keptByFilter cur).
Qed.

Lemma splitFrom_char (inRun : bool) (cur : string) (c : ascii) (s : string) :
  Js.isWhiteSpace c = false →
  Js.splitFrom inRun cur (String c s)
  = Js.splitFrom false (cur +:+ String c EmptyString) s.
Proof. intros Hc. cbn [Js.splitFrom]. by rewrite Hc. Qed.

Lemma filter_splitFrom_run (s : string) :
  List.filter keptByFilter (Js.splitFrom true EmptyString s)
  = List.filter keptByFilter (Js.splitFrom false EmptyString s).
Proof.
  destruct s as [|c s]; [done|].
  destruct (Js.isWhiteSpace c) eqn:Hc.
  - rewrite (filter_splitFrom_ws true EmptyString c s) by done.
    by rewrite (filter_splitFrom_ws false EmptyString c s).
  - cbn [Js.splitFrom]. by rewrite Hc.
Qed.

Lemma filter_splitFrom_allWhiteSpace (inRun : bool) (cur s : string) :
  allWhiteSpace s = true →
  (inRun = true → cur = EmptyString) →
  List.filter keptByFilter (Js.splitFrom inRun cur s) = List.filter keptByFilter [cur].
Proof.
  revert inRun cur. induction s as [|c s IH]; intros inRun cur Hall Hrun; [done|].
  unfold allWhiteSpace in Hall. simpl in Hall.
  apply andb_true_iff in Hall as [Hc Hs].
  rewrite filter_splitFrom_ws by done. rewrite (IH true EmptyString Hs) by done.
  by rewrite app_nil_r.
Qed.

Lemma keptByFilter_noWhiteSpace (s : string) :
  noWhiteSpace s = true → keptByFilter s = Js.truthy s.
Proof.
  intros Hns. unfold keptByFilter. rewrite (trim_noWhiteSpace _ Hns). by destruct s.
Qed.

Lemma truthy_snoc (s : string) (c : ascii) :
  Js.truthy (s +:+ String c EmptyString) = true.
Proof. by destruct s. Qed.

Lemma splitFrom_head (cur s : string) :
  noWhiteSpace cur = true → Js.truthy cur = true →
  ∃ piece rest, Js.splitFrom false cur s = piece :: rest ∧ keptByFilter piece = true.
Proof.
  revert cur. induction s as [|c s IH]; intros cur Hns Htruthy.
  - exists cur, []. split; [done|]. by rewrite keptByFilter_noWhiteSpace.
  - cbn [Js.splitFrom]. destruct (Js.isWhiteSpace c) eqn:Hc.
    + eexists _, _. split; [done|]. by rewrite keptByFilter_noWhiteSpace.
    + apply IH; [by apply noWhiteSpace_snoc|apply truthy_snoc].
Qed.

Lemma filter_splitFrom_nil (inRun : bool) (cur s : string) :
  noWhiteSpace cur = true →
  List.filter keptByFilter (Js.splitFrom inRun cur s) = [] →
  allWhiteSpace s = true.
Proof.
  revert inRun cur. induction s as [|c s IH]; intros inRun cur Hcur Hnil; [done|].
  unfold allWhiteSpace. simpl. cbn [Js.splitFrom] in Hnil.
  destruct (Js.isWhiteSpace c) eqn:Hc; simpl.
  - destruct inRun; [by apply (IH true EmptyString)|].
    cbn [List.filter] in Hnil. destruct (keptByFilter cur); [done|].
    by apply (IH true EmptyString).
  - exfalso.
    destruct (splitFrom_head (cur +:+ String c EmptyString) s)
      as (piece & rest & Hsplit & Hkept);
      [by apply noWhiteSpace_snoc|apply truthy_snoc|].
    rewrite Hsplit in Hnil. cbn [List.filter] in Hnil. by rewrite Hkept in Hnil.
Qed.

(** Leading white space does not change the class names. *)
Lemma splitClasses_trimStart (s : string) :
  splitClasses (Js.trimStart s) = splitClasses s.
Proof.
  rewrite !splitClasses_unfold. induction s as [|c s IH]; [done|].
  cbn [Js.trimStart]. destruct (Js.isWhiteSpace c) eqn:Hc; [|done].
  rewrite IH, filter_splitFrom_ws by done. by rewrite filter_splitFrom_run.
Qed.

Lemma trimEnd_empty (s : string) :
  Js.trimEnd s = EmptyString → allWhiteSpace s = true.
Proof.
  induction s as [|c s IH]; [done|]. cbn [Js.trimEnd].
  destruct (Js.trimEnd s) eqn:Hs; [|done].
  destruct (Js.isWhiteSpace c) eqn:Hc; [|done].
  intros _. unfold allWhiteSpace in *. simpl. rewrite Hc. by apply IH.
Qed.

(** Neither does trailing white space, whatever has been read before. *)
Lemma filter_splitFrom_trimEnd (inRun : bool) (cur s : string) :
  (inRun = true → cur = EmptyString) →
  List.filter keptByFilter (Js.splitFrom inRun cur (Js.trimEnd s))
  = List.filter keptByFilter (Js.splitFrom inRun cur s).
Proof.
  revert inRun cur. induction s as [|c s IH]; intros inRun cur Hrun; [done|].
  cbn [Js.trimEnd]. destruct (Js.trimEnd s) as [|d r] eqn:Hs.
  - pose proof (trimEnd_empty s Hs) as Hall.
    destruct (Js.isWhiteSpace c) eqn:Hc.
    + rewrite filter_splitFrom_ws by done.
      rewrite (filter_splitFrom_allWhiteSpace true EmptyString s Hall) by done.
      by rewrite app_nil_r.
    + cbn [Js.splitFrom]. rewrite Hc.
      by rewrite (filter_splitFrom_allWhiteSpace false _ s Hall).
  - destruct (Js.isWhiteSpace c) eqn:Hc.
    + rewrite (filter_splitFrom_ws inRun cur c s) by done.
      rewrite (filter_splitFrom_ws inRun cur c (String d r)) by done.
      f_equal. by apply IH.
    + rewrite !(splitFrom_char _ _ c) by done. by apply IH.
Qed.

Lemma splitClasses_trim (s : string) : splitClasses (Js.trim s) = splitClasses s.
Proof.
  unfold Js.trim. rewrite <- (splitClasses_trimStart s).
  rewrite !splitClasses_unfold. by apply filter_splitFrom_trimEnd.
Qed.

Lemma join_singleton (sep s : string) : Js.join sep [s] = s.
Proof. done. Qed.

(** X1. Every class name that [extractClassNames] returns is a token: it is
    not empty and holds no white-space character. *)
Theorem class_names_are_tokens (classNameValue : Node) (className : string) :
  className ∈ extractClassNames classNameValue →
  className ≠ EmptyString ∧ noWhiteSpace className = true.
Proof.
  intros Hin.
  pose proof (proj1 (Forall_forall _ _) (extractClassNames_tokens classNameValue)
                _ Hin) as Htoken.
  unfold isToken in Htoken. apply andb_true_iff in Htoken as [Htruthy Hns].
  split; [|done]. by intros ->.
Qed.

(** X2. A string literal yields no class name exactly when it is empty or
    made of white space only; for such a value the visitor returns at once:
    no lookup, no load, no report. *)
Theorem blank_class_string_is_skipped (h : Host) (context : Context)
    (cssPath : string) (rootFontSize : Z) (sourceCode : SourceCode)
    (classString : string) (w : World) :
  (extractClassNames (Literal (StringValue classString)) = [] ↔
   allWhiteSpace classString = true) ∧
  (allWhiteSpace classString = true →
   JSXAttributeVisitor h context cssPath rootFontSize sourceCode
     {| attr_name := "className";
        attr_value := Some (Literal (StringValue classString)) |} w
   = (Normal (), w)).
Proof.
  assert (allWhiteSpace classString = true →
          extractClassNames (Literal (StringValue classString)) = []) as Hblank.
  { intros Hall. simpl. rewrite splitClasses_unfold.
    by rewrite (filter_splitFrom_allWhiteSpace false EmptyString _ Hall). }
  split; [split; [|done]|].
  - simpl. rewrite splitClasses_unfold. by apply filter_splitFrom_nil.
  - intros Hall. unfold JSXAttributeVisitor.
    cbn [attr_name attr_value hasCheckedType negb String.eqb].
    change (String.eqb "className" "className") with true. cbv iota.
    cbn [hasCheckedType negb]. by rewrite (Hblank Hall).
Qed.

(** X3. White space around the class string does not matter, and a template
    literal without expressions yields the class names of the string literal
    with the same text. *)
Theorem template_literal_like_string (classString : string) :
  extractClassNames (Literal (StringValue (Js.trim classString)))
    = extractClassNames (Literal (StringValue classString)) ∧
  extractClassNames (TemplateLiteral [{| cooked := Some classString |}] [])
    = extractClassNames (Literal (StringValue classString)).
Proof.
  split; [apply splitClasses_trim|].
  change (splitClasses (Js.join " " (templateParts [{| cooked := Some classString |}]))
          = splitClasses classString).
  change (templateParts [{| cooked := Some classString |}])
    with (if Js.truthy (Js.trim classString) then [Js.trim classString] else []).
  destruct (Js.truthy (Js.trim classString)) eqn:Htrim.
  - rewrite join_singleton. apply splitClasses_trim.
  - rewrite <- (splitClasses_trim classString).
    destruct (Js.trim classString); [done|discriminate].
Qed.

(** X4. Joining the extracted class names with single spaces and extracting
    again gives the same class names. *)
Theorem extract_join_round_trip (classNameValue : Node) :
  extractClassNames
    (Literal (StringValue (Js.join " " (extractClassNames classNameValue))))
  = extractClassNames classNameValue.
Proof. simpl. apply splitClasses_join, extractClassNames_tokens. Qed.

Lemma class_names_are_tokens_witness :
  "m-2rem" ≠ EmptyString ∧ noWhiteSpace "m-2rem" = true.
Proof.
  apply (class_names_are_tokens Sample.mixedClasses "m-2rem").
  vm_compute. do 2 apply list_elem_of_further. apply list_elem_of_here.
Defined.

Lemma blank_class_string_is_skipped_witness :
  JSXAttributeVisitor Sample.host Sample.contextA "styles.css" 16 Sample.sourceCode
    {| attr_name := "className"; attr_value := Some (Literal (StringValue "   ")) |}
    initialWorld
  = (Normal (), initialWorld).
Proof.
  apply (blank_class_string_is_skipped Sample.host Sample.contextA "styles.css" 16
           Sample.sourceCode "   " initialWorld).
  reflexivity.
Defined.

(* ===================================================================== *)
(** * More on the lookups: resolution, repeated calls, the async call *)
(* ===================================================================== *)

(** X5. For a non-empty [cssPath], [resolveCssPath] never returns [null]. An
    absolute path comes back unchanged; a relative one is resolved against
    the directory of the linted file when it exists there, and otherwise
    against the working directory, whether or not it exists there. *)
Theorem resolveCssPath_returns_a_path (h : Host) (cssPath : string)
    (context : Context) (result : option string) :
  Js.truthy cssPath = true →
  resolveCssPath h cssPath context = Normal result →
  ∃ resolved, result = Some resolved ∧
    ((path_isAbsolute h cssPath = Normal true ∧ resolved = cssPath) ∨
     (path_isAbsolute h cssPath = Normal false ∧
      ∃ filename fileDir relativeToFile,
        getFilename context = Normal filename ∧
        path_dirname h filename = Normal fileDir ∧
        path_resolve h fileDir cssPath = Normal relativeToFile ∧
        ((fs_existsSync h relativeToFile = Normal true ∧ resolved = relativeToFile) ∨
         (fs_existsSync h relativeToFile = Normal false ∧
          ∃ cwd, process_cwd h = Normal cwd ∧
                 path_resolve h cwd cssPath = Normal resolved)))).
Proof.
  intros Htruthy. unfold resolveCssPath. rewrite Htruthy. simpl negb. cbv iota.
  unfold mbind, mret, completion_bind, completion_ret.
  destruct (path_isAbsolute h cssPath) as [[|]|e] eqn:Habs; [| |done].
  { intros [= <-]. exists cssPath. split; [done|]. by left. }
  destruct (getFilename context) as [filename|e]; [|done].
  destruct (path_dirname h filename) as [fileDir|e] eqn:Hdir; [|done].
  destruct (path_resolve h fileDir cssPath) as [relativeToFile|e] eqn:Hfile; [|done].
  destruct (fs_existsSync h relativeToFile) as [[|]|e] eqn:Hhere; [| |done].
  { intros [= <-]. exists relativeToFile. split; [done|]. right. split; [done|].
    exists filename, fileDir, relativeToFile. repeat split; try done. by left. }
  destruct (process_cwd h) as [cwd|e] eqn:Hcwd; [|done].
  destruct (path_resolve h cwd cssPath) as [relativeToCwd|e] eqn:Hrel; [|done].
  destruct (fs_existsSync h relativeToCwd) as [[|]|e]; [| |done].
  all: intros [= <-]; exists relativeToCwd; split; [done|]; right; split; [done|];
    exists filename, fileDir, relativeToFile; repeat split; try done; right;
    split; [done|]; by exists cwd.
Qed.

Lemma resolveCssPath_returns_a_path_witness :
  ∃ resolved, Some "/proj/nowhere.css" = Some resolved ∧
    ((path_isAbsolute Sample.host "nowhere.css" = Normal true ∧ resolved = "nowhere.css") ∨
     (path_isAbsolute Sample.host "nowhere.css" = Normal false ∧
      ∃ filename fileDir relativeToFile,
        getFilename Sample.contextA = Normal filename ∧
        path_dirname Sample.host filename = Normal fileDir ∧
        path_resolve Sample.host fileDir "nowhere.css" = Normal relativeToFile ∧
        ((fs_existsSync Sample.host relativeToFile = Normal true ∧
          resolved = relativeToFile) ∨
         (fs_existsSync Sample.host relativeToFile = Normal false ∧
          ∃ cwd, process_cwd Sample.host = Normal cwd ∧
                 path_resolve Sample.host cwd "nowhere.css" = Normal resolved)))).
Proof.
  apply (resolveCssPath_returns_a_path Sample.host "nowhere.css" Sample.contextA
           (Some "/proj/nowhere.css")); reflexivity.
Defined.

(** X6. When nothing is cached and the resolved stylesheet does not exist,
    the lookup answers [null], stores the error whose message names the
    configured [cssPath], and starts no load: the pending promises and the
    promise counter are as they were. *)
Theorem missing_stylesheet_starts_no_load (h : Host) (cssPath : string)
    (context : Context) (w : World) (resolved : string) :
  nothingCached (vars (afterReset cssPath w)) →
  resolveCssPath h cssPath context = Normal (Some resolved) →
  fs_existsSync h resolved = Normal false →
  getDesignSystemSync h cssPath context w
  = (Normal None,
     {| vars := setError (Error ("CSS file not found: " +:+ cssPath))
                  (resetVars cssPath);
        pending := pending w; nextPromise := nextPromise w;
        reported := reported w |}).
Proof.
  intros (Hc & He & Hp) Hr Hx.
  rewrite getDesignSystemSync_afterReset.
  rewrite (getDesignSystemSync_current _ _ _ _ (afterReset_current cssPath w)).
  rewrite Hc, He, Hp. unfold loadAttempt. unfold_monad. rewrite Hr, Hx.
  assert (vars (afterReset cssPath w) = resetVars cssPath) as Hvars.
  { pose proof (afterReset_current cssPath w) as Hpath.
    destruct (vars (afterReset cssPath w)). simpl in *. by subst. }
  assert (∀ v, withVars (afterReset cssPath w) v
               = {| vars := v; pending := pending w; nextPromise := nextPromise w;
                    reported := reported w |}) as Hwith.
  { intros v. unfold afterReset, resetIfPathChanged. by case_decide. }
  destruct (negb (Js.truthy resolved)); simpl; by rewrite Hwith, Hvars.
Qed.

Lemma missing_stylesheet_starts_no_load_witness :
  getDesignSystemSync Sample.host "missing.css" Sample.contextMissing Sample.loadingWorld
  = (Normal None,
     {| vars := setError (Error "CSS file not found: missing.css")
                  (resetVars "missing.css");
        pending := [0%nat]; nextPromise := 1; reported := [] |}).
Proof.
  apply (missing_stylesheet_starts_no_load Sample.host "missing.css"
           Sample.contextMissing Sample.loadingWorld "/proj/missing.css").
  - vm_compute. repeat split.
  - reflexivity.
  - reflexivity.
Defined.

(** After a lookup the variables are current, and either the handle that was
    returned is the cached one, or the answer was [null], no handle is
    cached, and an error or a promise is stored. *)
Lemma getDesignSystemSync_outcome (h : Host) (cssPath : string) (context : Context)
    (w : World) :
  cssPathCache (vars (getDesignSystemSync h cssPath context w).2) = Some cssPath ∧
  ((∃ ds, (getDesignSystemSync h cssPath context w).1 = Normal (Some ds) ∧
          designSystemCache (vars (getDesignSystemSync h cssPath context w).2)
            = Some ds) ∨
   ((getDesignSystemSync h cssPath context w).1 = Normal None ∧
    designSystemCache (vars (getDesignSystemSync h cssPath context w).2) = None ∧
    (is_Some (designSystemError (vars (getDesignSystemSync h cssPath context w).2)) ∨
     is_Some (designSystemPromise (vars (getDesignSystemSync h cssPath context w).2))))).
Proof.
  rewrite getDesignSystemSync_afterReset.
  pose proof (afterReset_current cssPath w) as Hpath.
  rewrite (getDesignSystemSync_current _ _ _ _ Hpath).
  set (w0 := afterReset cssPath w) in *.
  destruct (designSystemCache (vars w0)) as [ds|] eqn:Hc.
  { split; [done|]. left. by exists ds. }
  destruct (designSystemError (vars w0)) as [err|] eqn:He.
  { split; [done|]. right. simpl. rewrite He. split; [done|]. split; [done|]. left.
    by eexists. }
  destruct (designSystemPromise (vars w0)) as [p|] eqn:Hp.
  { split; [done|]. right. simpl. rewrite Hp. split; [done|]. split; [done|]. right.
    by eexists. }
  destruct (loadAttempt_cases h cssPath context w0) as [[e ->]|[->| ->]]; simpl.
  - split; [done|]. right. split; [done|]. split; [done|]. left. by eexists.
  - split; [done|]. right. split; [done|]. split; [done|]. left. by eexists.
  - split; [done|]. right. split; [done|]. split; [done|]. right. by eexists.
Qed.

Lemma getDesignSystemSync_again (h : Host) (cssPath : string)
    (context1 context2 : Context) (w : World) :
  getDesignSystemSync h cssPath context2 (getDesignSystemSync h cssPath context1 w).2
  = getDesignSystemSync h cssPath context1 w.
Proof.
  destruct (getDesignSystemSync_outcome h cssPath context1 w)
    as (Hpath & [(ds & Hres & Hc)|(Hres & Hc & Hstored)]).
  - rewrite (getDesignSystemSync_current _ _ _ _ Hpath), Hc.
    destruct (getDesignSystemSync h cssPath context1 w) as [r w1].
    simpl in *. by subst.
  - rewrite (getDesignSystemSync_current _ _ _ _ Hpath), Hc.
    destruct (getDesignSystemSync h cssPath context1 w) as [r w1]. simpl in *. subst.
    destruct (designSystemError (vars w1)); [done|].
    destruct Hstored as [[? [=]]|[p ->]]. done.
Qed.

Lemma getDesignSystemAsync_world (h : Host) (cssPath : string) (context : Context)
    (w : World) :
  getDesignSystemAsync h cssPath context w
  = (Normal (), (getDesignSystemSync h cssPath context w).2).
Proof.
  rewrite getDesignSystemSync_afterReset.
  pose proof (afterReset_current cssPath w) as Hpath.
  unfold getDesignSystemAsync. unfold mbind at 1, M_bind.
  assert (resetIfPathChanged cssPath w = (Normal (), afterReset cssPath w)) as ->.
  { unfold afterReset, resetIfPathChanged. by case_decide. }
  set (w0 := afterReset cssPath w) in *.
  destruct (getDesignSystemSync_outcome h cssPath context w0) as (_ & Hout).
  rewrite (getDesignSystemSync_current _ _ _ _ Hpath) in *.
  unfold_monad.
  destruct (designSystemCache (vars w0)) as [ds|] eqn:Hc; [done|].
  destruct (designSystemError (vars w0)) as [err|] eqn:He; [done|].
  destruct (designSystemPromise (vars w0)) as [p|] eqn:Hp; [done|].
  rewrite (getDesignSystemSync_current _ _ _ _ Hpath), Hc, He, Hp.
  by destruct (loadAttempt h cssPath context w0) as [[r|e] w1].
Qed.

(** X7. A lookup repeated with the same [cssPath], from whatever file and
    with nothing settling in between, gives the same answer and changes
    nothing: no second load is attempted, a failure is not retried. *)
Theorem lookup_is_idempotent (h : Host) (cssPath : string)
    (context1 context2 : Context) (w : World) :
  getDesignSystemSync h cssPath context2 (getDesignSystemSync h cssPath context1 w).2
  = getDesignSystemSync h cssPath context1 w.
Proof. apply getDesignSystemSync_again. Qed.

(** X8. [getDesignSystemAsync], up to its [await], never throws and leaves
    the world as [getDesignSystemSync] would; called right after
    [getDesignSystemSync], as the visitor does, it changes nothing. *)
Theorem async_lookup_follows_sync (h : Host) (cssPath : string)
    (context1 context2 : Context) (w : World) :
  getDesignSystemAsync h cssPath context1 w
    = (Normal (), (getDesignSystemSync h cssPath context1 w).2) ∧
  getDesignSystemAsync h cssPath context2 (getDesignSystemSync h cssPath context1 w).2
    = (Normal (), (getDesignSystemSync h cssPath context1 w).2).
Proof.
  split; [apply getDesignSystemAsync_world|].
  by rewrite getDesignSystemAsync_world, getDesignSystemSync_again.
Qed.

(* ===================================================================== *)
(** * More on the visitor: what it reports, and when *)
(* ===================================================================== *)

(** The two ways a lookup ends: with the handle cached once the variables
    are current, in the world after the reset; or with [null], in a world
    without a handle, where an error or a promise is stored and nothing new
    is reported. *)
Lemma getDesignSystemSync_split (h : Host) (cssPath : string) (context : Context)
    (w : World) :
  (∃ ds, designSystemCache (vars (afterReset cssPath w)) = Some ds ∧
         getDesignSystemSync h cssPath context w
         = (Normal (Some ds), afterReset cssPath w)) ∨
  (designSystemCache (vars (afterReset cssPath w)) = None ∧
   ∃ w1, getDesignSystemSync h cssPath context w = (Normal None, w1) ∧
         reported w1 = reported w ∧
         cssPathCache (vars w1) = Some cssPath ∧
         designSystemCache (vars w1) = None ∧
         (is_Some (designSystemError (vars w1)) ∨
          is_Some (designSystemPromise (vars w1)))).
Proof.
  rewrite getDesignSystemSync_afterReset.
  pose proof (afterReset_current cssPath w) as Hpath.
  rewrite (getDesignSystemSync_current _ _ _ _ Hpath).
  assert (reported (afterReset cssPath w) = reported w) as Hrep.
  { unfold afterReset, resetIfPathChanged. by case_decide. }
  set (w0 := afterReset cssPath w) in *.
  destruct (designSystemCache (vars w0)) as [ds|] eqn:Hc; [left; by exists ds|].
  right. split; [done|].
  destruct (designSystemError (vars w0)) as [err|] eqn:He.
  { exists w0. rewrite He. repeat split; try done. left. by eexists. }
  destruct (designSystemPromise (vars w0)) as [p|] eqn:Hp.
  { exists w0. rewrite Hp. repeat split; try done. right. by eexists. }
  destruct (loadAttempt_cases h cssPath context w0) as [[e ->]|[->| ->]];
    eexists; (split; [done|]); simpl; repeat split; try done.
  - left. by eexists.
  - left. by eexists.
  - right. by eexists.
Qed.

Lemma processClasses_no_classes (designSystem : DesignSystem) (classNameValue : Node)
    (sourceCode : SourceCode) (rootFontSize : Z) (w : World) :
  processClasses designSystem [] classNameValue sourceCode rootFontSize w
  = (Normal (), w).
Proof. rewrite processClasses_run. simpl. by rewrite appendReports_nil. Qed.

(** What a call of the visitor does to the world: nothing; or, without a
    cached handle, what the lookup does; or, with one, what
    [processClasses] does after the reset. *)
Lemma JSXAttributeVisitor_cases (h : Host) (context : Context) (cssPath : string)
    (rootFontSize : Z) (sourceCode : SourceCode) (node : JSXAttribute) (w : World) :
  JSXAttributeVisitor h context cssPath rootFontSize sourceCode node w = (Normal (), w) ∨
  (designSystemCache (vars (afterReset cssPath w)) = None ∧
   JSXAttributeVisitor h context cssPath rootFontSize sourceCode node w
   = (Normal (), (getDesignSystemSync h cssPath context w).2)) ∨
  (∃ ds classNames classNameValue,
     designSystemCache (vars (afterReset cssPath w)) = Some ds ∧
     JSXAttributeVisitor h context cssPath rootFontSize sourceCode node w
     = processClasses ds classNames classNameValue sourceCode rootFontSize
         (afterReset cssPath w)).
Proof.
  unfold JSXAttributeVisitor.
  destruct (negb (String.eqb (attr_name node) "className")); [by left|].
  destruct (attr_value node) as [value|]; [|by left].
  match goal with |- context [hasCheckedType ?n] => destruct (negb (hasCheckedType n)) end;
    [by left|].
  match goal with |- context [Nat.eqb ?n 0] => destruct (Nat.eqb n 0) end; [by left|].
  unfold mbind, M_bind. right.
  destruct (getDesignSystemSync_split h cssPath context w)
    as [(ds & Hc & Hsync)|(Hc & w1 & Hsync & _ & Hpath & Hc1 & Hstored)];
    rewrite Hsync.
  - right. destruct (canonicalizeCandidates ds); [by eexists ds, _, _|].
    exists ds, [], (OtherNode EmptyString). split; [done|].
    by rewrite processClasses_no_classes.
  - left. split; [done|]. unfold swallow. simpl.
    rewrite getDesignSystemAsync_world.
    rewrite (getDesignSystemSync_current _ _ _ _ Hpath), Hc1.
    destruct (designSystemError (vars w1)); [done|].
    destruct Hstored as [[? [=]]|[p ->]]. done.
Qed.

(** A lookup never stores a handle and never reports. *)
Lemma noHandleFor_sync (h : Host) (cssPath : string) (context : Context) (w : World) :
  noHandleFor cssPath w →
  noHandleFor cssPath (getDesignSystemSync h cssPath context w).2 ∧
  reported (getDesignSystemSync h cssPath context w).2 = reported w.
Proof.
  unfold noHandleFor. intros Hnone.
  destruct (getDesignSystemSync_split h cssPath context w)
    as [(ds & Hc & _)|(_ & w1 & -> & Hrep & Hpath & Hc1 & _)]; [congruence|].
  simpl. split; [|done]. unfold afterReset.
  by rewrite (resetIfPathChanged_same _ _ Hpath).
Qed.

Lemma noHandleFor_visitor (h : Host) (context : Context) (cssPath : string)
    (rootFontSize : Z) (sourceCode : SourceCode) (node : JSXAttribute) (w : World) :
  noHandleFor cssPath w →
  noHandleFor cssPath
    (JSXAttributeVisitor h context cssPath rootFontSize sourceCode node w).2 ∧
  reported (JSXAttributeVisitor h context cssPath rootFontSize sourceCode node w).2
    = reported w.
Proof.
  intros Hnone.
  destruct (JSXAttributeVisitor_cases h context cssPath rootFontSize sourceCode node w)
    as [->|[[_ ->]|(ds & ? & ? & Hc & _)]].
  - done.
  - simpl. by apply noHandleFor_sync.
  - unfold noHandleFor in Hnone. congruence.
Qed.

Lemma noHandleFor_visitAll (h : Host) (context : Context) (cssPath : string)
    (rootFontSize : Z) (sourceCode : SourceCode) (nodes : list JSXAttribute)
    (w : World) :
  noHandleFor cssPath w →
  noHandleFor cssPath
    (visitAll (JSXAttributeVisitor h context cssPath rootFontSize sourceCode) nodes w).2 ∧
  reported
    (visitAll (JSXAttributeVisitor h context cssPath rootFontSize sourceCode) nodes w).2
    = reported w.
Proof.
  revert w. induction nodes as [|node rest IH]; intros w Hnone; [done|].
  simpl. unfold mbind, M_bind.
  destruct (noHandleFor_visitor h context cssPath rootFontSize sourceCode node w Hnone)
    as [Hnone1 Hrep1].
  destruct (JSXAttributeVisitor h context cssPath rootFontSize sourceCode node w)
    as [[[]|e] w1]; simpl in *; [|done].
  destruct (IH w1 Hnone1) as [Hnone2 Hrep2]. split; [done|congruence].
Qed.

(** X9. While no handle is cached for the configured [cssPath], linting a
    file reports nothing, whatever its class names: in particular the file
    whose lint starts the load is not checked. *)
Theorem no_handle_no_report (h : Host) (context : Context) (cssPath : string)
    (nodes : list JSXAttribute) (w : World) :
  configuredCssPath context = Some cssPath →
  Js.truthy cssPath = true →
  noHandleFor cssPath w →
  reported (lintFile h context nodes w).2 = reported w ∧
  noHandleFor cssPath (lintFile h context nodes w).2.
Proof.
  intros Hcfg Htruthy Hnone. unfold lintFile, create, configuredCssPath in *.
  destruct (options context) as [o|]; simpl in Hcfg; [|done].
  simpl. rewrite Hcfg, Htruthy. simpl.
  by destruct (noHandleFor_visitAll h context cssPath
                 match opt_rootFontSize o with
                 | Some n => if Z.eqb n 0 then 16%Z else n
                 | None => 16%Z
                 end (getSourceCode context) nodes w Hnone).
Qed.

Lemma no_handle_no_report_witness :
  reported (lintFile Sample.host Sample.contextA
              [Sample.className "p-4px"; Sample.className "m-2rem flex"]
              initialWorld).2 = [] ∧
  noHandleFor "styles.css"
    (lintFile Sample.host Sample.contextA
       [Sample.className "p-4px"; Sample.className "m-2rem flex"] initialWorld).2.
Proof.
  apply (no_handle_no_report Sample.host Sample.contextA "styles.css"
           [Sample.className "p-4px"; Sample.className "m-2rem flex"] initialWorld);
    reflexivity.
Defined.

Lemma sameCache_refl (w : World) : sameCache w w.
Proof. done. Qed.

Lemma sameCache_trans (w1 w2 w3 : World) :
  sameCache w1 w2 → sameCache w2 w3 → sameCache w1 w3.
Proof. intros (? & ? & ?) (? & ? & ?). repeat split; congruence. Qed.

(** What the visitor reports are problems about class names; with a handle
    cached for the current [cssPath] it changes nothing else. *)
Lemma JSXAttributeVisitor_reports (h : Host) (context : Context) (cssPath : string)
    (rootFontSize : Z) (sourceCode : SourceCode) (node : JSXAttribute) (w : World) :
  ∃ rs,
    reported (JSXAttributeVisitor h context cssPath rootFontSize sourceCode node w).2
      = reported w ++ rs ∧
    Forall isClassProblem rs ∧
    (cssPathCache (vars w) = Some cssPath →
     is_Some (designSystemCache (vars w)) →
     sameCache (JSXAttributeVisitor h context cssPath rootFontSize sourceCode node w).2 w).
Proof.
  assert (reported (afterReset cssPath w) = reported w) as Hrep0.
  { unfold afterReset, resetIfPathChanged. by case_decide. }
  destruct (JSXAttributeVisitor_cases h context cssPath rootFontSize sourceCode node w)
    as [->|[[Hnone ->]|(ds & classNames & classNameValue & Hc & ->)]].
  - exists []. by rewrite app_nil_r.
  - exists []. rewrite app_nil_r.
    destruct (getDesignSystemSync_split h cssPath context w)
      as [(ds & Hc & _)|(_ & w1 & -> & Hrep & _)]; [congruence|].
    split; [done|]. split; [done|]. intros Hpath [ds Hds]. exfalso.
    unfold afterReset in Hnone. rewrite (resetIfPathChanged_same _ _ Hpath) in Hnone.
    simpl in Hnone. congruence.
  - rewrite processClasses_run. eexists. simpl. rewrite Hrep0. split; [done|]. split.
    + apply Forall_forall. intros r (k & issue & -> & _)%elem_of_lookup_imap.
      split; [done|]. by eexists.
    + intros Hpath _. unfold afterReset.
      by rewrite (resetIfPathChanged_same _ _ Hpath).
Qed.

Lemma visitAll_reports (h : Host) (context : Context) (cssPath : string)
    (rootFontSize : Z) (sourceCode : SourceCode) (nodes : list JSXAttribute)
    (w : World) :
  ∃ rs,
    reported
      (visitAll (JSXAttributeVisitor h context cssPath rootFontSize sourceCode) nodes w).2
      = reported w ++ rs ∧
    Forall isClassProblem rs ∧
    (cssPathCache (vars w) = Some cssPath →
     is_Some (designSystemCache (vars w)) →
     sameCache
       (visitAll (JSXAttributeVisitor h context cssPath rootFontSize sourceCode) nodes w).2
       w).
Proof.
  revert w. induction nodes as [|node rest IH]; intros w.
  { exists []. by rewrite app_nil_r. }
  simpl. unfold mbind, M_bind.
  destruct (JSXAttributeVisitor_reports h context cssPath rootFontSize sourceCode node w)
    as (rs1 & Hrep1 & Hall1 & Hsame1).
  destruct (JSXAttributeVisitor h context cssPath rootFontSize sourceCode node w)
    as [[[]|e] w1]; simpl in *.
  - destruct (IH w1) as (rs2 & Hrep2 & Hall2 & Hsame2).
    exists (rs1 ++ rs2). rewrite Hrep2, Hrep1, app_assoc. split; [done|].
    split; [by apply Forall_app|]. intros Hpath Hcache.
    specialize (Hsame1 Hpath Hcache). destruct Hsame1 as (Hv & Hp & Hn).
    apply sameCache_trans with w1; [|done].
    apply Hsame2; by rewrite Hv.
  - by exists rs1.
Qed.

(** X10. With [cssPath] configured, the only problems a lint reports are
    problems about class names, each on a node: a stylesheet that is missing
    or fails to load is never reported ([cssNotFound] is kept for a missing
    option). *)
Theorem only_class_problems_reported (h : Host) (context : Context)
    (cssPath : string) (nodes : list JSXAttribute) (w : World) :
  configuredCssPath context = Some cssPath →
  Js.truthy cssPath = true →
  ∃ rs, reported (lintFile h context nodes w).2 = reported w ++ rs ∧
        Forall isClassProblem rs.
Proof.
  intros Hcfg Htruthy. unfold lintFile, create, configuredCssPath in *.
  destruct (options context) as [o|]; simpl in Hcfg; [|done].
  simpl. rewrite Hcfg, Htruthy. simpl.
  destruct (visitAll_reports h context cssPath
              match opt_rootFontSize o with
              | Some n => if Z.eqb n 0 then 16%Z else n
              | None => 16%Z
              end (getSourceCode context) nodes w) as (rs & Hrep & Hall & _).
  by exists rs.
Qed.

Lemma only_class_problems_reported_witness :
  ∃ rs,
    reported (lintFile Sample.host Sample.contextMissing
                [Sample.className "p-4px"] Sample.loadedWorld).2
      = reported Sample.loadedWorld ++ rs ∧
    Forall isClassProblem rs.
Proof.
  apply (only_class_problems_reported Sample.host Sample.contextMissing "missing.css"
           [Sample.className "p-4px"] Sample.loadedWorld); reflexivity.
Defined.

Lemma lintFile_loaded (h : Host) (context : Context) (cssPath : string)
    (nodes : list JSXAttribute) (w : World) :
  configuredCssPath context = Some cssPath →
  cssPathCache (vars w) = Some cssPath →
  is_Some (designSystemCache (vars w)) →
  sameCache (lintFile h context nodes w).2 w.
Proof.
  intros Hcfg Hpath Hcache. unfold lintFile, create, configuredCssPath in *.
  destruct (options context) as [o|]; simpl in Hcfg; [|done].
  simpl. rewrite Hcfg. destruct (negb (Js.truthy cssPath)); [done|]. simpl.
  destruct (visitAll_reports h context cssPath
              match opt_rootFontSize o with
              | Some n => if Z.eqb n 0 then 16%Z else n
              | None => 16%Z
              end (getSourceCode context) nodes w) as (rs & _ & _ & Hsame).
  by apply Hsame.
Qed.

(** X11. In a run from the loaded module in which every file is configured
    with the same stylesheet, a handle that has been cached stays: whatever
    happens next (files linted, promises settling), the module variables
    are unchanged and no load is in flight. *)
Theorem cached_handle_is_kept (h : Host) (cssPath : string)
    (before after : list Event) (ds : DesignSystem) :
  Forall (usesStylesheet cssPath) (before ++ after) →
  designSystemCache (vars (runEvents h before initialWorld)) = Some ds →
  vars (runEvents h after (runEvents h before initialWorld))
    = vars (runEvents h before initialWorld) ∧
  pending (runEvents h after (runEvents h before initialWorld)) = [].
Proof.
  intros [Hbefore Hafter]%Forall_app Hcache.
  pose proof (oneLoad_run h cssPath before initialWorld Hbefore (oneLoad_initial _))
    as (Hpath & _ & Hpend).
  set (w := runEvents h before initialWorld) in *.
  assert (cssPathCache (vars w) = Some cssPath) as Hcur.
  { destruct Hpath as [?|(_ & (Hc & _) & _)]; [done|congruence]. }
  assert (pending w = []) as Hnil.
  { destruct Hpend as [?|(p & _ & _ & Hc & _)]; [done|congruence]. }
  clear Hpath Hpend Hbefore.
  assert (∀ w', vars w' = vars w → pending w' = [] →
                vars (runEvents h after w') = vars w ∧
                pending (runEvents h after w') = []) as Hgen; [|by apply Hgen].
  induction Hafter as [|ev rest Hev _ IH]; intros w' Hv Hp; [done|].
  simpl. apply IH.
  - destruct ev as [context nodes|p ds'|p e]; simpl.
    + destruct (lintFile_loaded h context cssPath nodes w' Hev) as (Hv' & _);
        [by rewrite Hv|rewrite Hv, Hcache; by eexists|congruence].
    + unfold isPending. by rewrite Hp.
    + unfold isPending. by rewrite Hp.
  - destruct ev as [context nodes|p ds'|p e]; simpl.
    + destruct (lintFile_loaded h context cssPath nodes w' Hev) as (_ & Hp' & _);
        [by rewrite Hv|rewrite Hv, Hcache; by eexists|congruence].
    + unfold isPending. by rewrite Hp.
    + unfold isPending. by rewrite Hp.
Qed.

Lemma cached_handle_is_kept_witness :
  vars (runEvents Sample.host
          [EvLint Sample.contextB [Sample.className "p-4px m-2rem"];
           EvReject 0 (Error "late")]
          (runEvents Sample.host
             [EvLint Sample.contextA [Sample.className "p-4px"];
              EvFulfil 0 Sample.designSystem] initialWorld))
    = vars (runEvents Sample.host
              [EvLint Sample.contextA [Sample.className "p-4px"];
               EvFulfil 0 Sample.designSystem] initialWorld) ∧
  pending (runEvents Sample.host
             [EvLint Sample.contextB [Sample.className "p-4px m-2rem"];
              EvReject 0 (Error "late")]
             (runEvents Sample.host
                [EvLint Sample.contextA [Sample.className "p-4px"];
                 EvFulfil 0 Sample.designSystem] initialWorld)) = [].
Proof.
  apply (cached_handle_is_kept Sample.host "styles.css"
           [EvLint Sample.contextA [Sample.className "p-4px"];
            EvFulfil 0 Sample.designSystem]
           [EvLint Sample.contextB [Sample.className "p-4px m-2rem"];
            EvReject 0 (Error "late")] Sample.designSystem).
  - repeat constructor.
  - reflexivity.
Defined.

Lemma loadedOnce_afterReset (cssPath : string) (w : World) :
  oneLoad cssPath w → loadedOnce w → loadedOnce (afterReset cssPath w).
Proof.
  intros (Hpath & _ & _) Honce. unfold afterReset, resetIfPathChanged.
  case_decide as Hd; [done|]. simpl.
  destruct Hpath as [?|(_ & (_ & _ & Hp) & _)]; [done|].
  destruct Honce as [[Hn _]|[_ Hp']]; [by left|congruence].
Qed.

Lemma loadedOnce_sync (h : Host) (cssPath : string) (context : Context) (w : World) :
  oneLoad cssPath w → loadedOnce w →
  loadedOnce (getDesignSystemSync h cssPath context w).2.
Proof.
  intros Hinv Honce. rewrite getDesignSystemSync_afterReset.
  pose proof (loadedOnce_afterReset _ _ Hinv Honce) as Honce0.
  rewrite (getDesignSystemSync_current _ _ _ _ (afterReset_current cssPath w)).
  set (w0 := afterReset cssPath w) in *.
  destruct (designSystemCache (vars w0)); [done|].
  destruct (designSystemError (vars w0)); [done|].
  destruct (designSystemPromise (vars w0)) eqn:Hp; [done|].
  destruct (loadAttempt_cases h cssPath context w0) as [[e ->]|[->| ->]]; simpl.
  - destruct Honce0 as [[Hn _]|[_ Hp']]; [by left|congruence].
  - destruct Honce0 as [[Hn _]|[_ Hp']]; [by left|congruence].
  - destruct Honce0 as [[Hn _]|[_ Hp']]; [|congruence].
    right. unfold withLoad. simpl. by rewrite Hn.
Qed.

Lemma loadedOnce_visitor (h : Host) (context : Context) (cssPath : string)
    (rootFontSize : Z) (sourceCode : SourceCode) (node : JSXAttribute) (w : World) :
  oneLoad cssPath w → loadedOnce w →
  loadedOnce (JSXAttributeVisitor h context cssPath rootFontSize sourceCode node w).2.
Proof.
  intros Hinv Honce.
  destruct (JSXAttributeVisitor_cases h context cssPath rootFontSize sourceCode node w)
    as [->|[[_ ->]|(ds & classNames & classNameValue & _ & ->)]].
  - done.
  - by apply loadedOnce_sync.
  - rewrite processClasses_run. by apply (loadedOnce_afterReset cssPath).
Qed.

Lemma loadedOnce_visitAll (h : Host) (context : Context) (cssPath : string)
    (rootFontSize : Z) (sourceCode : SourceCode) (nodes : list JSXAttribute)
    (w : World) :
  oneLoad cssPath w → loadedOnce w →
  loadedOnce
    (visitAll (JSXAttributeVisitor h context cssPath rootFontSize sourceCode) nodes w).2.
Proof.
  revert w. induction nodes as [|node rest IH]; intros w Hinv Honce; [done|].
  simpl. unfold mbind, M_bind.
  pose proof (oneLoad_visitor h context cssPath rootFontSize sourceCode node w Hinv)
    as Hinv1.
  pose proof (loadedOnce_visitor h context cssPath rootFontSize sourceCode node w
                Hinv Honce) as Honce1.
  destruct (JSXAttributeVisitor h context cssPath rootFontSize sourceCode node w)
    as [[[]|e] w1]; simpl in *; [by apply IH|done].
Qed.

Lemma loadedOnce_step (h : Host) (cssPath : string) (ev : Event) (w : World) :
  usesStylesheet cssPath ev →
  oneLoad cssPath w → loadedOnce w → loadedOnce (stepEvent h ev w).
Proof.
  intros Hev Hinv Honce. destruct ev as [context nodes|p ds|p e]; simpl.
  - simpl in Hev. unfold lintFile, create, configuredCssPath in *.
    destruct (options context) as [o|]; simpl in Hev; [|done].
    simpl. rewrite Hev. destruct (negb (Js.truthy cssPath)); [done|]. simpl.
    by apply loadedOnce_visitAll.
  - by destruct (isPending p w).
  - by destruct (isPending p w).
Qed.

(** X12. In a run from the loaded module in which every file is configured
    with the same stylesheet, the stylesheet is loaded at most once: at most
    one load promise is ever created, however many files and class
    attributes are linted, and at most one is in flight. *)
Theorem stylesheet_loaded_at_most_once (h : Host) (cssPath : string)
    (evs : list Event) :
  Forall (usesStylesheet cssPath) evs →
  nextPromise (runEvents h evs initialWorld) ≤ 1 ∧
  length (pending (runEvents h evs initialWorld)) ≤ 1.
Proof.
  intros Hevs.
  assert (∀ w, oneLoad cssPath w → loadedOnce w →
               oneLoad cssPath (runEvents h evs w) ∧ loadedOnce (runEvents h evs w))
    as Hgen.
  { induction Hevs as [|ev rest Hev _ IH]; intros w Hinv Honce; [done|].
    simpl. apply IH; [by apply oneLoad_step|by apply (loadedOnce_step h cssPath)]. }
  destruct (Hgen initialWorld (oneLoad_initial cssPath)) as [(_ & _ & Hpend) Honce];
    [by left|].
  split.
  - destruct Honce as [[-> _]|[-> _]]; lia.
  - destruct Hpend as [->|(p & -> & _)]; simpl; lia.
Qed.

Lemma stylesheet_loaded_at_most_once_witness :
  nextPromise (runEvents Sample.host
                 [EvLint Sample.contextA [Sample.className "a"; Sample.className "b"];
                  EvLint Sample.contextB [Sample.className "c"];
                  EvFulfil 0 Sample.designSystem;
                  EvLint Sample.contextA [Sample.className "p-4px"]] initialWorld) ≤ 1 ∧
  length (pending (runEvents Sample.host
                 [EvLint Sample.contextA [Sample.className "a"; Sample.className "b"];
                  EvLint Sample.contextB [Sample.className "c"];
                  EvFulfil 0 Sample.designSystem;
                  EvLint Sample.contextA [Sample.className "p-4px"]] initialWorld)) ≤ 1.
Proof.
  apply (stylesheet_loaded_at_most_once Sample.host "styles.css").
  repeat constructor.
Defined.

(** X13. A load promise that fulfils while it is pending fills the cache
    for whichever [cssPath] is current: the lookup then returns its handle,
    also when the promise is not the stored one (it was started for another
    [cssPath], before the variables were reset). *)
Theorem fulfilled_promise_fills_current_cache (h : Host) (cssPath : string)
    (context : Context) (w : World) (p : Promise) (ds : DesignSystem) :
  isPending p w = true →
  cssPathCache (vars w) = Some cssPath →
  getDesignSystemSync h cssPath context (stepEvent h (EvFulfil p ds) w)
  = (Normal (Some ds), stepEvent h (EvFulfil p ds) w).
Proof.
  intros Hp Hpath. cbn [stepEvent]. rewrite Hp.
  assert (cssPathCache (vars (onFulfilled ds (settle p w))) = Some cssPath) as Hpath'
    by done.
  by rewrite (getDesignSystemSync_current _ _ _ _ Hpath').
Qed.

Lemma fulfilled_promise_fills_current_cache_witness :
  designSystemPromise
    (vars (runEvents Sample.host (take 2 Sample.staleRun) initialWorld)) = None ∧
  getDesignSystemSync Sample.host "missing.css" Sample.contextMissing
    (stepEvent Sample.host (EvFulfil 0 Sample.designSystem)
       (runEvents Sample.host (take 2 Sample.staleRun) initialWorld))
  = (Normal (Some Sample.designSystem),
     stepEvent Sample.host (EvFulfil 0 Sample.designSystem)
       (runEvents Sample.host (take 2 Sample.staleRun) initialWorld)).
Proof.
  split; [reflexivity|].
  apply (fulfilled_promise_fills_current_cache Sample.host "missing.css"
           Sample.contextMissing
           (runEvents Sample.host (take 2 Sample.staleRun) initialWorld) 0
           Sample.designSystem); reflexivity.
Defined.

(* ===================================================================== *)
(** * More on processClasses: silence, untouched tokens, the fix applied *)
(* ===================================================================== *)

Lemma issueAt_None (designSystem : DesignSystem) (rootFontSize : Z) (i : nat)
    (className : string) :
  issueAt designSystem rootFontSize i className = None ↔
  raisesNoIssue designSystem rootFontSize className.
Proof.
  unfold issueAt, raisesNoIssue.
  destruct (callCanonicalize designSystem [className] rootFontSize) as [candidates|e].
  - case_decide as Hd.
    + split; [|done]. intros _. right. by exists candidates.
    + split; [done|]. intros [[e [=]]|(cs & [= <-] & Hcs)]. done.
  - split; [|done]. intros _. left. by exists e.
Qed.

Lemma issuesFrom_nil (designSystem : DesignSystem) (rootFontSize : Z) (i : nat)
    (classNames : list string) :
  issuesFrom designSystem rootFontSize i classNames = [] ↔
  Forall (raisesNoIssue designSystem rootFontSize) classNames.
Proof.
  revert i. induction classNames as [|className rest IH]; intros i; simpl.
  - split; [constructor|done].
  - destruct (issueAt designSystem rootFontSize i className) as [issue|] eqn:Hat;
      simpl.
    + split; [done|]. intros [Hno _]%Forall_cons.
      apply (issueAt_None _ _ i) in Hno. congruence.
    + rewrite IH, Forall_cons. apply issueAt_None in Hat. tauto.
Qed.

(** X14. [processClasses] does nothing at all, no report and no fix, exactly
    when no token raises an issue: on each one [canonicalizeCandidates]
    throws or returns the token itself first. *)
Theorem silent_iff_no_issue (designSystem : DesignSystem) (classNames : list string)
    (classNameValue : Node) (sourceCode : SourceCode) (rootFontSize : Z) (w : World) :
  processClasses designSystem classNames classNameValue sourceCode rootFontSize w
    = (Normal (), w) ↔
  Forall (raisesNoIssue designSystem rootFontSize) classNames.
Proof.
  rewrite processClasses_run, <- (issuesFrom_nil designSystem rootFontSize 0).
  destruct (issuesFrom designSystem rootFontSize 0 classNames) as [|first others].
  - simpl. by rewrite appendReports_nil.
  - split; [|done]. intros [= Hw]. exfalso.
    apply (f_equal reported) in Hw. simpl in Hw.
    apply (f_equal length) in Hw. rewrite length_app in Hw. simpl in Hw. lia.
Qed.

(** X15. A token that raises no issue is left as it is in the rewritten
    class list, whatever the other tokens are rewritten to. *)
Theorem canonical_token_untouched (designSystem : DesignSystem) (rootFontSize : Z)
    (classNames : list string) (i : nat) (className : string) :
  classNames !! i = Some className →
  raisesNoIssue designSystem rootFontSize className →
  fixedClassNames (issuesFrom designSystem rootFontSize 0 classNames) classNames !! i
  = Some className.
Proof.
  intros Hi Hno. rewrite fixedClassNames_lookup, Hi. simpl. f_equal.
  unfold fixClassName.
  destruct (buildCanonicalMap (issuesFrom designSystem rootFontSize 0 classNames)
              !! className) as [v|] eqn:Hm; [|done].
  exfalso. apply buildCanonicalMap_lookup_Some in Hm as (issue & Hin & Ho & _).
  apply issuesFrom_elem in Hin as (_ & cs & _ & _ & Hcall & _ & Hne).
  rewrite Ho in Hcall, Hne.
  destruct Hno as [[e He]|(cs' & Hcs' & Hfirst)]; congruence.
Qed.

Lemma canonical_token_untouched_witness :
  fixedClassNames
    (issuesFrom Sample.designSystem 16 0 ["p-4px"; "[boom"; "m-2rem"; "flex"])
    ["p-4px"; "[boom"; "m-2rem"; "flex"] !! 1%nat = Some "[boom".
Proof.
  apply (canonical_token_untouched Sample.designSystem 16
           ["p-4px"; "[boom"; "m-2rem"; "flex"] 1 "[boom").
  - reflexivity.
  - left. exists (Error "Invalid candidate"). reflexivity.
Defined.

(** Every token of the rewritten list raises no issue, when
    [canonicalizeCandidates] canonicalizes the original tokens well. *)
Lemma fixed_tokens_raise_no_issue (designSystem : DesignSystem) (rootFontSize : Z)
    (classNames : list string) :
  Forall (canonicalizesWell designSystem rootFontSize) classNames →
  Forall (raisesNoIssue designSystem rootFontSize)
    (fixedClassNames (issuesFrom designSystem rootFontSize 0 classNames) classNames).
Proof.
  intros Hwell. unfold fixedClassNames. apply Forall_fmap, Forall_forall.
  intros className Hin. simpl.
  pose proof (proj1 (Forall_forall _ _) Hwell _ Hin) as Hc.
  unfold fixClassName.
  destruct (buildCanonicalMap (issuesFrom designSystem rootFontSize 0 classNames)
              !! className) as [v|] eqn:Hm.
  - apply buildCanonicalMap_lookup_Some in Hm as (issue & Hissue & Ho & Hv).
    apply issuesFrom_elem in Hissue as (_ & cs & _ & _ & Hcall & Hcanon & Hne).
    rewrite Ho in Hcall. destruct (Hc cs Hcall) as (r & Hr & Htok & again & Hagain & Hfix).
    rewrite <- Hv, Hcanon, Hr.
    unfold isToken in Htok. apply andb_true_iff in Htok as [-> _].
    right. by exists again.
  - destruct (callCanonicalize designSystem [className] rootFontSize) as [cs|e] eqn:Hcall;
      [|left; by exists e].
    right. exists cs. split; [done|].
    destruct (decide (cs !! 0%nat = Some className)) as [|Hne]; [done|]. exfalso.
    apply list_elem_of_lookup_1 in Hin as [i Hi].
    assert ({| original := className; canonical := cs !! 0%nat; index := i |}
              ∈ issuesFrom designSystem rootFontSize 0 classNames) as Hissue.
    { apply elem_of_issuesFrom. exists i, className. split; [done|].
      apply issueAt_Some. by exists cs. }
    apply buildCanonicalMap_issuesFrom in Hissue. simpl in Hissue. congruence.
Qed.

(** X16. When [canonicalizeCandidates]
    canonicalizes the tokens of a value well, the string literal holding the
    rewritten class list yields exactly the rewritten tokens, and
    [processClasses] finds nothing left to report on them. *)
Theorem fix_leaves_nothing_to_report (designSystem : DesignSystem) (rootFontSize : Z)
    (classNameValue : Node) (sourceCode : SourceCode) (w : World) :
  Forall (canonicalizesWell designSystem rootFontSize)
    (extractClassNames classNameValue) →
  let fixed :=
    fixedClassNames
      (issuesFrom designSystem rootFontSize 0 (extractClassNames classNameValue))
      (extractClassNames classNameValue) in
  let rewritten := Literal (StringValue (Js.join " " fixed)) in
  extractClassNames rewritten = fixed ∧
  processClasses designSystem (extractClassNames rewritten) rewritten sourceCode
    rootFontSize w = (Normal (), w).
Proof.
  intros Hwell fixed rewritten.
  assert (extractClassNames rewritten = fixed) as Hextract.
  { simpl. apply splitClasses_join. unfold fixed, fixedClassNames.
    apply Forall_fmap, Forall_forall. intros className Hin. simpl.
    pose proof (proj1 (Forall_forall _ _) Hwell _ Hin) as Hc.
    pose proof (proj1 (Forall_forall _ _)
                  (extractClassNames_tokens classNameValue) _ Hin) as Htoken.
    unfold fixClassName.
    destruct (buildCanonicalMap _ !! className) as [[r|]|] eqn:Hm; [|done..].
    destruct (Js.truthy r) eqn:Htruthy; [|done].
    apply buildCanonicalMap_lookup_Some in Hm as (issue & Hissue & Ho & Hv).
    apply issuesFrom_elem in Hissue as (_ & cs & _ & _ & Hcall & Hcanon & _).
    rewrite Ho in Hcall. destruct (Hc cs Hcall) as (r' & Hr' & Htok & _).
    congruence. }
  split; [done|]. rewrite Hextract.
  rewrite processClasses_run.
  pose proof (fixed_tokens_raise_no_issue designSystem rootFontSize
                (extractClassNames classNameValue) Hwell) as Hnone.
  apply (issuesFrom_nil designSystem rootFontSize 0) in Hnone.
  fold fixed in Hnone. rewrite Hnone. simpl. by rewrite appendReports_nil.
Qed.

Lemma fix_leaves_nothing_to_report_witness :
  let fixed :=
    fixedClassNames
      (issuesFrom Sample.designSystem 16 0 (extractClassNames Sample.mixedClasses))
      (extractClassNames Sample.mixedClasses) in
  let rewritten := Literal (StringValue (Js.join " " fixed)) in
  extractClassNames rewritten = fixed ∧
  processClasses Sample.designSystem (extractClassNames rewritten) rewritten
    Sample.sourceCode 16 initialWorld = (Normal (), initialWorld).
Proof.
  apply (fix_leaves_nothing_to_report Sample.designSystem 16 Sample.mixedClasses
           Sample.sourceCode initialWorld).
  vm_compute extractClassNames.
  repeat apply Forall_cons_2; [..|apply Forall_nil_2];
    intros candidates Hcall; vm_compute in Hcall; try discriminate;
    injection Hcall as <-; eexists; (split; [reflexivity|]);
    (split; [reflexivity|]); eexists; split; reflexivity.
Defined.

(** With a handle cached for the current [cssPath] the visitor does not
    depend on the host. *)
Lemma JSXAttributeVisitor_loaded_host (h1 h2 : Host) (context : Context)
    (cssPath : string) (rootFontSize : Z) (sourceCode : SourceCode)
    (node : JSXAttribute) (w : World) :
  cssPathCache (vars w) = Some cssPath →
  is_Some (designSystemCache (vars w)) →
  JSXAttributeVisitor h1 context cssPath rootFontSize sourceCode node w
  = JSXAttributeVisitor h2 context cssPath rootFontSize sourceCode node w.
Proof.
  intros Hpath [ds Hds]. unfold JSXAttributeVisitor.
  destruct (negb (String.eqb (attr_name node) "className")); [done|].
  destruct (attr_value node) as [value|]; [|done].
  match goal with |- context [hasCheckedType ?n] => destruct (negb (hasCheckedType n)) end;
    [done|].
  match goal with |- context [Nat.eqb ?n 0] => destruct (Nat.eqb n 0) end; [done|].
  unfold mbind, M_bind.
  by rewrite !(getDesignSystemSync_current _ _ _ _ Hpath), Hds.
Qed.

Lemma visitAll_loaded_host (h1 h2 : Host) (context : Context)
    (cssPath : string) (rootFontSize : Z) (sourceCode : SourceCode)
    (nodes : list JSXAttribute) (w : World) :
  cssPathCache (vars w) = Some cssPath →
  is_Some (designSystemCache (vars w)) →
  visitAll (JSXAttributeVisitor h1 context cssPath rootFontSize sourceCode) nodes w
  = visitAll (JSXAttributeVisitor h2 context cssPath rootFontSize sourceCode) nodes w.
Proof.
  revert w. induction nodes as [|node rest IH]; intros w Hpath Hcache; [done|].
  simpl. unfold mbind, M_bind.
  rewrite (JSXAttributeVisitor_loaded_host h1 h2 _ _ _ _ _ _ Hpath Hcache).
  destruct (JSXAttributeVisitor_reports h2 context cssPath rootFontSize sourceCode node w)
    as (_ & _ & _ & Hsame).
  destruct (Hsame Hpath Hcache) as (Hv & _).
  destruct (JSXAttributeVisitor h2 context cssPath rootFontSize sourceCode node w)
    as [[[]|e] w1]; simpl in *; [|done].
  apply IH; by rewrite Hv.
Qed.

(** X17. Once a handle is cached for the configured [cssPath], linting a
    file does not depend on the host any more: the stylesheet is not resolved,
    looked for or read again, and no load is started. *)
Theorem loaded_lint_ignores_host (h1 h2 : Host) (context : Context)
    (cssPath : string) (nodes : list JSXAttribute) (w : World) :
  configuredCssPath context = Some cssPath →
  cssPathCache (vars w) = Some cssPath →
  is_Some (designSystemCache (vars w)) →
  lintFile h1 context nodes w = lintFile h2 context nodes w ∧
  sameCache (lintFile h1 context nodes w).2 w.
Proof.
  intros Hcfg Hpath Hcache. split; [|by apply (lintFile_loaded h1 context cssPath)].
  unfold lintFile, create, configuredCssPath in *.
  destruct (options context) as [o|]; simpl in Hcfg; [|done].
  simpl. rewrite Hcfg. destruct (negb (Js.truthy cssPath)); [done|]. simpl.
  by apply visitAll_loaded_host.
Qed.

Lemma loaded_lint_ignores_host_witness :
  lintFile Sample.host Sample.contextB [Sample.className "p-4px flex"] Sample.loadedWorld
  = lintFile
      {| path_isAbsolute := λ _, Throw (Error "unreachable");
         path_dirname := λ _, Throw (Error "unreachable");
         path_resolve := λ _ _, Throw (Error "unreachable");
         fs_existsSync := λ _, Throw (Error "unreachable");
         fs_readFileSync := λ _, Throw (Error "unreachable");
         process_cwd := Throw (Error "unreachable");
         loadDesignSystem := λ _ _, Throw (Error "unreachable") |}
      Sample.contextB [Sample.className "p-4px flex"] Sample.loadedWorld ∧
  sameCache
    (lintFile Sample.host Sample.contextB [Sample.className "p-4px flex"]
       Sample.loadedWorld).2 Sample.loadedWorld.
Proof.
  apply (loaded_lint_ignores_host Sample.host _ Sample.contextB "styles.css"
           [Sample.className "p-4px flex"] Sample.loadedWorld).
  - reflexivity.
  - reflexivity.
  - eexists. reflexivity.
Defined.
